(** * Serial matrix wizard and MRP tags: a shallow embedding

    Source files embedded here:
    - [mrp_production_serial_matrix/wizards/mrp_production_serial_matrix.py]
      (class [MrpProductionSerialMatrix]);
    - [mrp_tag/models/mrp_tag.py] (class [MrpTag]).

    Conventions.
    - An Odoo record is represented by its identifier; field reads on other
      models ([product.tracking], [lot.name], ...) are functions of the
      database, gathered in the class [Env].
    - Python floats are represented by the rational they denote.  Comparison
      and [int()] are exact on floats and are modelled exactly; [+], [-] and
      [/] round, so they are taken from [Env] ([float_add], [float_sub],
      [float_div]) and every statement holds for any rounding.
    - [_()] (gettext) is taken on the source language: terms are not
      translated.
    - A Python [dict] is an association list in insertion order. *)

From Stdlib Require Import ZArith QArith List String Ascii Bool Lia.
From Stdlib Require Import Qround Lqa DecimalString.
Import ListNotations.

Local Open Scope Z_scope.
Local Open Scope string_scope.
Local Open Scope list_scope.

(** String concatenation; [++] is kept for lists. *)
Infix "+++" := String.append (right associativity, at level 60).

(** ** Python values *)

Inductive exn : Type :=
| UserError (msg : string)
| ZeroDivisionError
| IndexError
| ValueError        (* "Expected singleton" *)
| AttributeError
| HostError (msg : string).

Inductive result (A : Type) : Type :=
| Ok (a : A)
| Raise (e : exn).
Arguments Ok {A} a.
Arguments Raise {A} e.

Definition rbind {A B} (r : result A) (k : A -> result B) : result B :=
  match r with
  | Ok a => k a
  | Raise e => Raise e
  end.

Definition rmap {A B} (f : A -> B) (r : result A) : result B :=
  rbind r (fun a => Ok (f a)).

(** [str(n)] for a Python [int]. *)
Definition str_of_int (n : Z) : string := NilZero.string_of_int (Z.to_int n).

(** [sep.join(l)]. *)
Fixpoint join (sep : string) (l : list string) : string :=
  match l with
  | [] => ""
  | [s] => s
  | s :: rest => s +++ sep +++ join sep rest
  end.

(** [x < y] on floats. *)
Definition Qltb (x y : Q) : bool := negb (Qle_bool y x).

(** [int(x)] on a float: truncation toward zero.  The floats of the
    model are finite: a quotient that has overflowed to infinity, on
    which [int()] raises [OverflowError], has no counterpart here: the
    statements about the generator's exceptions say when it raises, never
    that it raises nothing else. *)
Definition int_of_float (x : Q) : Z := Z.quot (Qnum x) (Zpos (Qden x)).

(** [x / y] on floats. *)
Definition py_div (fdiv : Q -> Q -> Q) (x y : Q) : result Q :=
  if Qeq_bool y 0 then Raise ZeroDivisionError else Ok (fdiv x y).

(** ** Records *)

(** Record identifiers: a database id, or the [NewId] of a record living
    in an onchange cache, with the id it originates from (if any).  The
    lots the wizard handles are saved lots, whose onchange copies carry
    an origin; new records without origin are not told apart from one
    another. *)
Inductive record_id : Type :=
| Id (n : Z)
| NewId (origin : option Z).

Definition record_id_eqb (a b : record_id) : bool :=
  match a, b with
  | Id n, Id m => Z.eqb n m
  | NewId None, NewId None => true
  | NewId (Some n), NewId (Some m) => Z.eqb n m
  | _, _ => false
  end.

Definition record_id_eq_dec (a b : record_id) : {a = b} + {a <> b}.
Proof. repeat decide equality. Defined.

(** [stock.lot] records and [product.product] records. *)
Definition lot := record_id.
Definition product := Z.

(** [product.tracking] selection values "none", "lot", "serial". *)
Inductive tracking_mode : Type := none | by_lot | by_serial.

Definition tracking_eqb (a b : tracking_mode) : bool :=
  match a, b with
  | none, none | by_lot, by_lot | by_serial, by_serial => true
  | _, _ => false
  end.

(** A record of [mrp.production.serial.matrix.line] (the wizard's
    [line_ids]), with the fields the wizard reads and writes. *)
Record matrix_line : Type := {
  component_id : product;
  component_column_name : string;
  component_lot_id : option lot;
  finished_lot_id : option lot;
  finished_lot_name : option string;
  lot_qty : Q
}.

(** What the wizard reads from the database and from the float unit. *)
Class Env : Type := {
  tracking : product -> tracking_mode;
  display_name : product -> string;
  lot_name : lot -> string;
  float_add : Q -> Q -> Q;
  float_sub : Q -> Q -> Q;
  float_div : Q -> Q -> Q;
  (* odoo.tools.float_utils.float_is_zero(value, precision_rounding) *)
  float_is_zero : Q -> Q -> bool;
  (* "%s" % x for a float x *)
  str_of_float : Q -> string;
  (* line._get_available_and_reserved_quantities() *)
  get_available_and_reserved_quantities : matrix_line -> Q * Q
}.

(** ** Dictionaries keyed by lot records *)

Definition dict (V : Type) : Type := list (lot * V).

Fixpoint dict_get {V} (d : dict V) (k : lot) : option V :=
  match d with
  | [] => None
  | (k', v) :: d' => if record_id_eqb k k' then Some v else dict_get d' k
  end.

(** [d.setdefault(k, v)] *)
Fixpoint setdefault {V} (d : dict V) (k : lot) (v : V) : dict V :=
  match d with
  | [] => [(k, v)]
  | (k', v') :: d' =>
      if record_id_eqb k k' then d else (k', v') :: setdefault d' k v
  end.

(** [d[k] = v] *)
Fixpoint dict_set {V} (d : dict V) (k : lot) (v : V) : dict V :=
  match d with
  | [] => [(k, v)]
  | (k', v') :: d' =>
      if record_id_eqb k k' then (k', v) :: d' else (k', v') :: dict_set d' k v
  end.

(** [d[k]] where the key is known to be present (it has just been given
    a default); [dflt] stands for the unreachable [KeyError]. *)
Definition dict_item {V} (d : dict V) (k : lot) (dflt : V) : V :=
  match dict_get d k with
  | Some v => v
  | None => dflt
  end.

(** Recordset helpers: [mapped] on a many2one field yields the union of
    the values, each record once, in order of first occurrence. *)
Definition mem_lot (x : lot) (l : list lot) : bool :=
  existsb (record_id_eqb x) l.

Definition unique (l : list lot) : list lot :=
  fold_left (fun seen x => if mem_lot x seen then seen else seen ++ [x]) l [].

(** ** The warning aggregator: [_compute_lot_selection_warning] *)

Section Aggregator.
Context {E : Env}.

(** The pair of accumulators [warning_lots], [warning_msgs]. *)
Definition warnings : Type := (list lot * list string)%type.

(** [lambda l: l.component_id.tracking == "serial"] *)
Definition is_serial_line (l : matrix_line) : bool :=
  tracking_eqb (tracking (component_id l)) by_serial.

(** [lambda l: l.component_id.tracking == "lot"] *)
Definition is_lot_line (l : matrix_line) : bool :=
  tracking_eqb (tracking (component_id l)) by_lot.

(** Body of [for sl in serial_lines]. *)
Definition count_serial (serial_counter : dict Z) (sl : matrix_line) : dict Z :=
  match component_lot_id sl with
  | None => serial_counter
  | Some k =>
      let d := setdefault serial_counter k 0 in
      dict_set d k (dict_item d k 0 + 1)
  end.

Definition serial_msg (l : lot) : string :=
  "Serial number " +++ lot_name l +++ " selected several times".

(** Body of [for lot, counter in serial_counter.items()]. *)
Definition report_serial (w : warnings) (item : lot * Z) : warnings :=
  let '(l, counter) := item in
  if (1 <? counter)%Z then (fst w ++ [l], snd w ++ [serial_msg l]) else w.

Definition lot_msg (l : lot) (available_quantity qty : Q) : string :=
  "Lot " +++ lot_name l +++ " not available at the needed qty ("
    +++ str_of_float available_quantity +++ "/" +++ str_of_float qty +++ ")".

(** Body of [for ll in lot_lines]; the state is [lot_consumption] and the
    two warning accumulators. *)
Definition check_lot (st : dict Q * warnings) (ll : matrix_line)
  : dict Q * warnings :=
  let '(lot_consumption, w) := st in
  match component_lot_id ll with
  | None => st
  | Some k =>
      let d := setdefault lot_consumption k 0%Q in
      let '(free_qty, reserved_qty) := get_available_and_reserved_quantities ll in
      let available_quantity := float_add free_qty reserved_qty in
      let w' :=
        if Qltb (float_sub available_quantity (dict_item d k 0%Q)) (lot_qty ll)
        then (fst w ++ [k], snd w ++ [lot_msg k available_quantity (lot_qty ll)])
        else w in
      (dict_set d k (float_add (dict_item d k 0%Q) (lot_qty ll)), w')
  end.

(** [lambda l: l.finished_lot_id and not l.component_lot_id] *)
Definition not_filled (l : matrix_line) : bool :=
  match finished_lot_id l, component_lot_id l with
  | Some _, None => true
  | _, _ => false
  end.

(** [lines.mapped("finished_lot_id")] *)
Definition mapped_finished_lot_id (lines : list matrix_line) : list lot :=
  unique (flat_map (fun l => match finished_lot_id l with
                             | Some f => [f]
                             | None => []
                             end) lines).

Definition not_filled_msg (lots : list lot) : string :=
  "Some cells are not filled for some finished serial number ("
    +++ join ", " (map lot_name lots) +++ ")".

(** The serial pass (source lines 55-70), from given accumulators. *)
Definition serial_pass (line_ids : list matrix_line) (w : warnings) : warnings :=
  let serial_lines := filter is_serial_line line_ids in
  let serial_counter := fold_left count_serial serial_lines [] in
  fold_left report_serial serial_counter w.

(** The lot pass (source lines 71-91). *)
Definition lot_pass (line_ids : list matrix_line) (w : warnings) : warnings :=
  let lot_lines := filter is_lot_line line_ids in
  snd (fold_left check_lot lot_lines ([], w)).

(** The unfilled-cell pass (source lines 93-102). *)
Definition not_filled_pass (line_ids : list matrix_line) (w : warnings)
  : warnings :=
  let not_filled_lines := filter not_filled line_ids in
  match not_filled_lines with
  | [] => w
  | _ :: _ =>
      let not_filled_finshed_lots := mapped_finished_lot_id not_filled_lines in
      (fst w ++ not_filled_finshed_lots,
       snd w ++ [not_filled_msg not_filled_finshed_lots])
  end.

(** [warning_lots] and [warning_msgs] at the end of the loop body. *)
Definition collect_warnings (line_ids : list matrix_line) : warnings :=
  not_filled_pass line_ids (lot_pass line_ids (serial_pass line_ids ([], []))).

(** The three computed fields of the wizard. *)
Record warning_fields : Type := {
  lot_selection_warning_msg : string;
  lot_selection_warning_ids : list lot;
  lot_selection_warning_count : Z
}.

Definition _compute_lot_selection_warning (line_ids : list matrix_line)
  : warning_fields :=
  let '(warning_lots, warning_msgs) := collect_warnings line_ids in
  {| lot_selection_warning_msg := join ", " warning_msgs;
     lot_selection_warning_ids := warning_lots;
     lot_selection_warning_count := Z.of_nat (List.length warning_lots) |}.

End Aggregator.

(** ** The matrix line generator: [_get_matrix_lines] *)

(** [mrp.bom.line]: [product_qty] and [bom_id.product_qty]. *)
Record bom_line : Type := {
  boml_product_qty : Q;
  bom_product_qty : Q
}.

(** [stock.move], with the fields the wizard reads;
    [move_rounding] is [move.product_id.uom_id.rounding]. *)
Record stock_move : Type := {
  move_id : Z;
  move_product_id : product;
  move_product_qty : Q;
  move_product_uom_qty : Q;
  move_rounding : Q;
  move_location_id : Z;
  bom_line_id : option bom_line
}.

(** [mrp.production] *)
Record mrp_production : Type := {
  product_qty : Q;
  lot_producing_id : option lot;
  move_raw_ids : list stock_move;
  move_byproduct_ids : list stock_move
}.

(** The dictionary of values built by [_prepare_matrix_line].  A key that
    is absent and a key whose value is falsy are both [None]. *)
Record line_vals : Type := {
  v_component_id : product;
  v_component_column_name : string;
  v_lot_qty : Q;
  v_finished_lot_id : option Z;
  v_finished_lot_name : option string
}.

(** [(component, lot_no, lot_qty)] *)
Definition component_tuple : Type := (product * Z * Q)%type.

(** [range(a, b)] *)
Definition py_range (a b : Z) : list Z :=
  map (fun i => a + Z.of_nat i) (seq 0 (Z.to_nat (b - a))).

(** [recordset - record] *)
Definition remove_lot (x : lot) (l : list lot) : list lot :=
  filter (fun y => negb (record_id_eqb y x)) l.

Section Generator.
Context {E : Env}.

Definition _prepare_matrix_line (ct : component_tuple)
    (finished_lot : option lot) (number : option Z) : line_vals :=
  let '(component, lot_no, lot_qty) := ct in
  let column_name := display_name component in
  let column_name :=
    if (0 <? lot_no)%Z
    then column_name +++ " (" +++ str_of_int lot_no +++ ")"
    else column_name in
  match finished_lot with
  | Some fl =>
      let lot_id := match fl with
                    | NewId origin => origin
                    | Id n => Some n
                    end in
      {| v_component_id := component;
         v_component_column_name := column_name;
         v_lot_qty := lot_qty;
         v_finished_lot_id := lot_id;
         v_finished_lot_name := Some (lot_name fl) |}
  | None =>
      {| v_component_id := component;
         v_component_column_name := column_name;
         v_lot_qty := lot_qty;
         v_finished_lot_id := None;
         v_finished_lot_name :=
           match number with
           | Some n => Some ("(New Lot " +++ str_of_int n +++ ")")
           | None => None
           end |}
  end.

(** [qty_per_finished_unit] of a move (source lines 145-152). *)
Definition qty_per_finished_unit (production : mrp_production)
    (move : stock_move) : result Q :=
  match bom_line_id move with
  | Some boml => py_div float_div (boml_product_qty boml) (bom_product_qty boml)
  | None => py_div float_div (move_product_qty move) (product_qty production)
  end.

(** Body of [for move in production.move_raw_ids]: the tuples the move
    appends to [tracked_components]. *)
Definition move_components (include_lots : bool) (production : mrp_production)
    (move : stock_move) : result (list component_tuple) :=
  if float_is_zero (move_product_qty move) (move_rounding move) then Ok []
  else
    rbind (qty_per_finished_unit production move) (fun q =>
      match tracking (move_product_id move) with
      | by_serial =>
          Ok (map (fun i => (move_product_id move, i, 1%Q))
                  (py_range 1 (int_of_float q + 1)))
      | by_lot =>
          if include_lots then Ok [(move_product_id move, 0%Z, q)] else Ok []
      | none => Ok []
      end).

(** The first loop, from the current value of [tracked_components]. *)
Fixpoint collect_components (include_lots : bool) (production : mrp_production)
    (moves : list stock_move) (tracked_components : list component_tuple)
  : result (list component_tuple) :=
  match moves with
  | [] => Ok tracked_components
  | move :: rest =>
      rbind (move_components include_lots production move) (fun cs =>
        collect_components include_lots production rest
                           (tracked_components ++ cs))
  end.

(** Variables of the second loop. *)
Record gen_state : Type := {
  matrix_lines : list line_vals;
  current_lot : option lot;
  new_lot_number : Z;
  finished_lots : list lot
}.

(** Body of [for _i in range(int(production.product_qty))]. *)
Definition group_step (tracked_components : list component_tuple)
    (st : gen_state) : gen_state :=
  let '(cur, num) :=
    match finished_lots st with
    | f :: _ => (Some f, new_lot_number st)
    | [] => (current_lot st, new_lot_number st + 1)
    end in
  let lines :=
    matrix_lines st
      ++ map (fun ct => _prepare_matrix_line ct cur (Some num))
             tracked_components in
  match cur with
  | Some c =>
      {| matrix_lines := lines; current_lot := None; new_lot_number := num;
         finished_lots := remove_lot c (finished_lots st) |}
  | None =>
      {| matrix_lines := lines; current_lot := None; new_lot_number := num;
         finished_lots := finished_lots st |}
  end.

Fixpoint group_loop (n : nat) (tracked_components : list component_tuple)
    (st : gen_state) : gen_state :=
  match n with
  | O => st
  | S n' => group_loop n' tracked_components (group_step tracked_components st)
  end.

Definition _get_matrix_lines (include_lots : bool)
    (production : mrp_production) (finished_lots0 : list lot)
  : result (list line_vals) :=
  rbind (collect_components include_lots production
                            (move_raw_ids production) [])
    (fun tracked_components =>
       Ok (matrix_lines
             (group_loop (Z.to_nat (int_of_float (product_qty production)))
                         tracked_components
                         {| matrix_lines := []; current_lot := None;
                            new_lot_number := 0; finished_lots := finished_lots0 |}))).

(** The wizard record. *)
Record wizard : Type := {
  production_id : Z;
  finished_lot_ids : list lot;
  line_ids : list matrix_line;
  include_lots : bool
}.

(** The line created by the command [(0, 0, vals)]. *)
Definition new_line (v : line_vals) : matrix_line :=
  {| component_id := v_component_id v;
     component_column_name := v_component_column_name v;
     component_lot_id := None;
     finished_lot_id := option_map Id (v_finished_lot_id v);
     finished_lot_name := v_finished_lot_name v;
     lot_qty := v_lot_qty v |}.

(** The user sets the "Include Lots?" box of the wizard. *)
Definition with_include_lots (b : bool) (rec : wizard) : wizard :=
  {| production_id := production_id rec;
     finished_lot_ids := finished_lot_ids rec;
     line_ids := line_ids rec;
     include_lots := b |}.

(** [_onchange_finished_lot_ids] on one record; [browse] reads the
    manufacturing order of the wizard. *)
Definition _onchange_finished_lot_ids (browse : Z -> mrp_production)
    (rec : wizard) : result wizard :=
  rbind (_get_matrix_lines (include_lots rec) (browse (production_id rec))
                           (finished_lot_ids rec))
    (fun matrix_lines =>
       Ok {| production_id := production_id rec;
             finished_lot_ids := finished_lot_ids rec;
             line_ids := map new_line matrix_lines;
             include_lots := include_lots rec |}).

End Generator.

(** ** Commit: [button_validate] *)

(** [stock.move.line] *)
Record stock_move_line : Type := {
  move_line_id : Z;
  line_product_qty : Q
}.

(** The calls the wizard makes into the host application that may change
    its state.  [lot_id] of [update_reserved_quantity] is [None] when the
    keyword argument is not passed. *)
Inductive host_call : Type :=
| split_productions (mo : Z) (amounts : list Z)
| write_production (mo : Z) (lot_producing : record_id) (qty_producing : Q)
| action_confirm (mo : Z)
| update_reserved_quantity (move : Z) (need available_quantity : Q)
                           (location_id : Z) (lot_id : option (option lot))
| write_qty_done (line : Z) (qty_done : Q)
| button_mark_done (mo : Z).

(** The host application: its state, what the wizard reads from it, and
    how it reacts to a call (new state, exception raised if any, records
    returned by [_split_productions]). *)
Class Host : Type := {
  hstate : Type;
  read_production : hstate -> Z -> mrp_production;
  read_move : hstate -> Z -> stock_move;
  read_move_lines : hstate -> Z -> list stock_move_line;
  host_exec : host_call -> hstate -> hstate;
  host_raises : host_call -> hstate -> option exn;
  split_result : hstate -> Z -> list Z -> list Z
}.

(** [mos] is a recordset after a split and a Python list otherwise. *)
Inductive mo_collection : Type :=
| Recordset (ids : list Z)
| PyList (items : list Z).

Definition mo_items (mos : mo_collection) : list Z :=
  match mos with
  | Recordset ids => ids
  | PyList items => items
  end.

(** The action returned by [button_validate]. *)
Record act_window : Type := {
  act_name : string;
  act_res_model : string;
  act_domain_ids : list Z
}.

Definition option_eqb {A} (eqb : A -> A -> bool) (a b : option A) : bool :=
  match a, b with
  | Some x, Some y => eqb x y
  | None, None => true
  | _, _ => false
  end.

Section Commit.
Context {E : Env} {H : Host}.

(** The host state together with the calls made so far. *)
Definition world : Type := (hstate * list host_call)%type.

(** Computations that read and change the world and may raise. *)
Definition M (A : Type) : Type := world -> result A * world.

Definition ret {A} (a : A) : M A := fun w => (Ok a, w).

Definition raise {A} (e : exn) : M A := fun w => (Raise e, w).

Definition bind {A B} (m : M A) (k : A -> M B) : M B :=
  fun w =>
    match m w with
    | (Ok a, w') => k a w'
    | (Raise e, w') => (Raise e, w')
    end.

Definition read {A} (f : hstate -> A) : M A := fun w => (Ok (f (fst w)), w).

Definition call (c : host_call) : M unit :=
  fun w =>
    let w' := (host_exec c (fst w), snd w ++ [c]) in
    match host_raises c (fst w) with
    | Some e => (Raise e, w')
    | None => (Ok tt, w')
    end.

Fixpoint for_each {A} (l : list A) (body : A -> M unit) : M unit :=
  match l with
  | [] => ret tt
  | x :: rest => bind (body x) (fun _ => for_each rest body)
  end.

(** [enumerate(l)] *)
Definition enumerate {A} (l : list A) : list (nat * A) :=
  combine (seq 0 (List.length l)) l.

(** The filter of source lines 237-239. *)
Definition matches_move (mo_lot : option lot) (move_product : product)
    (l : matrix_line) : bool :=
  (option_eqb record_id_eqb (finished_lot_id l) mo_lot
   || option_eqb String.eqb (finished_lot_name l) (option_map lot_name mo_lot))
  && Z.eqb (component_id l) move_product.

(** Field access on a recordset that must hold one record. *)
Definition ensure_one {A} (l : list A) : result A :=
  match l with
  | [x] => Ok x
  | _ => Raise ValueError
  end.

Definition lift {A} (r : result A) : M A := fun w => (r, w).

(** Body of [for move in mo.move_raw_ids + mo.move_byproduct_ids]. *)
Definition reserve_move (self : wizard) (mo : Z) (move : Z) : M unit :=
  bind (read (fun h => lot_producing_id (read_production h mo))) (fun mo_lot =>
  bind (read (fun h => read_move h move)) (fun mv =>
  let matrix_line :=
    filter (matches_move mo_lot (move_product_id mv)) (line_ids self) in
  bind (match matrix_line with
        | _ :: _ =>
            bind (lift (ensure_one matrix_line)) (fun l =>
              call (update_reserved_quantity move (move_product_uom_qty mv)
                      (lot_qty l) (move_location_id mv)
                      (Some (component_lot_id l))))
        | [] =>
            call (update_reserved_quantity move (move_product_uom_qty mv)
                    (move_product_uom_qty mv) (move_location_id mv) None)
        end) (fun _ =>
  bind (read (fun h => read_move_lines h move)) (fun lines =>
  for_each lines (fun line =>
    call (write_qty_done (move_line_id line) (line_product_qty line))))))).

(** Body of [for index, finished_lot in enumerate(self.finished_lot_ids)]. *)
Definition produce_unit (self : wizard) (mos : mo_collection)
    (item : nat * lot) : M unit :=
  let '(index, finished_lot) := item in
  match nth_error (mo_items mos) index with
  | None => raise IndexError
  | Some mo =>
      bind (call (write_production mo finished_lot 1%Q)) (fun _ =>
      bind (call (action_confirm mo)) (fun _ =>
      bind (read (fun h =>
              let p := read_production h mo in
              map move_id (move_raw_ids p ++ move_byproduct_ids p)))
        (fun moves =>
      for_each moves (reserve_move self mo))))
  end.

(** Source lines 231-262: the loop over the finished lots, the closing
    loop over [mos] and the action returned. *)
Definition produce_all (self : wizard) (mos : mo_collection) : M act_window :=
  bind (for_each (enumerate (finished_lot_ids self)) (produce_unit self mos))
    (fun _ =>
  bind (for_each (mo_items mos) (fun mo => call (button_mark_done mo)))
    (fun _ =>
  match mos with
  | Recordset ids =>
      ret {| act_name := "Manufacturing Orders";
             act_res_model := "mrp.production";
             act_domain_ids := ids |}
  | PyList _ => raise AttributeError    (* a list has no [ids] *)
  end)).

(** What remains of [button_validate] once the warning check is passed. *)
Definition commit (self : wizard) : M act_window :=
  let current_mo := production_id self in
  bind (read (fun h => product_qty (read_production h current_mo))) (fun qty =>
  bind (if Qltb 1 qty
        then
          let amounts := map (fun _ => 1%Z) (finished_lot_ids self) in
          bind (call (split_productions current_mo amounts)) (fun _ =>
          bind (read (fun h => split_result h current_mo amounts)) (fun ids =>
          ret (Recordset ids)))
        else ret (PyList [current_mo]))
    (produce_all self)).

Definition button_validate (self : wizard) : M act_window :=
  let fields := _compute_lot_selection_warning (line_ids self) in
  if (0 <? lot_selection_warning_count fields)%Z
  then raise (UserError ("Some issues has been detected in your selection: "
                           +++ lot_selection_warning_msg fields))
  else commit self.

End Commit.

(** ** Tags: [MrpTag] *)

(** Python's [random] module: a generator state and [randint]. *)
Class Random : Type := {
  rng : Type;
  randint : Z -> Z -> rng -> Z * rng
}.

(** The documented contract of [random.randint(a, b)]: an integer [N]
    with [a <= N <= b]. *)
Definition randint_in_range (R : Random) : Prop :=
  forall a b g, a <= b -> a <= fst (randint a b g) <= b.

Record mrp_tag : Type := {
  name : string;
  color : Z
}.

Section Tag.
Context {R : Random}.

Definition _get_default_color (g : rng) : Z * rng := randint 1 11 g.

(** [create] with the values given; a field that is not supplied takes
    its default. *)
Definition create (vals_name : string) (vals_color : option Z) (g : rng)
  : mrp_tag * rng :=
  match vals_color with
  | Some c => ({| name := vals_name; color := c |}, g)
  | None =>
      let '(c, g') := _get_default_color g in
      ({| name := vals_name; color := c |}, g')
  end.

End Tag.

(** ** Specification-side definitions *)

Section SpecSide.
Context {E : Env}.

(** The row [r] has lot or serial [k] in its cell. *)
Definition assigned (k : lot) (r : matrix_line) : bool :=
  option_eqb record_id_eqb (component_lot_id r) (Some k).

(** Number of rows of [rows] whose cell holds [k]. *)
Definition occurrences (k : lot) (rows : list matrix_line) : nat :=
  List.length (filter (assigned k) rows).

(** Free plus reserved quantity reported for the row's lot. *)
Definition available (r : matrix_line) : Q :=
  float_add (fst (get_available_and_reserved_quantities r))
            (snd (get_available_and_reserved_quantities r)).

(** Quantity drawn from lot [k] by the rows that come earlier. *)
Definition drawn_before (k : lot) (earlier : list matrix_line) : Q :=
  fold_left (fun acc r => if assigned k r then float_add acc (lot_qty r)
                          else acc) earlier 0%Q.

(** The shortfall condition as the specification words it: what is
    available, minus what earlier rows drew from the same lot, is less
    than what the row asks for. *)
Definition short_at (earlier : list matrix_line) (r : matrix_line) : bool :=
  match component_lot_id r with
  | None => false
  | Some k => Qltb (float_sub (available r) (drawn_before k earlier)) (lot_qty r)
  end.

(** Rows flagged when walking [rows] in order after [earlier]. *)
Fixpoint flagged_rows (earlier rows : list matrix_line) : list matrix_line :=
  match rows with
  | [] => []
  | r :: rest =>
      (if short_at earlier r then [r] else [])
        ++ flagged_rows (earlier ++ [r]) rest
  end.

(** The lot in the cell of a row, as a list of zero or one record. *)
Definition cell (r : matrix_line) : list lot :=
  match component_lot_id r with
  | Some k => [k]
  | None => []
  end.

Definition shortfall_msg (r : matrix_line) : list string :=
  map (fun k => lot_msg k (available r) (lot_qty r)) (cell r).

(** The finished unit of each group of the generator: the chosen lot, or
    the number of the placeholder. *)
Fixpoint group_heads (n : nat) (lots : list lot) (num : Z)
  : list (option lot * Z) :=
  match n with
  | O => []
  | S n' =>
      match lots with
      | f :: _ => (Some f, num) :: group_heads n' (remove_lot f lots) num
      | [] => (None, num + 1) :: group_heads n' [] (num + 1)
      end
  end.

(** The rows of one group. *)
Definition group_rows (tracked : list component_tuple)
    (head : option lot * Z) : list line_vals :=
  map (fun ct => _prepare_matrix_line ct (fst head) (Some (snd head))) tracked.

(** The tuples kept when lots are not included. *)
Definition not_lot_tuple (ct : component_tuple) : bool :=
  negb (tracking_eqb (tracking (fst (fst ct))) by_lot).

(** A row of a lot-tracked, respectively serial-tracked, component. *)
Definition vals_by_lot (v : line_vals) : bool :=
  tracking_eqb (tracking (v_component_id v)) by_lot.

Definition vals_by_serial (v : line_vals) : bool :=
  tracking_eqb (tracking (v_component_id v)) by_serial.

End SpecSide.

(** Classification of host calls. *)
Definition is_split (c : host_call) : bool :=
  match c with
  | split_productions _ _ => true
  | _ => false
  end.

(** A call that addresses a manufacturing order addresses one of [mos]. *)
Definition on_orders (mos : list Z) (c : host_call) : bool :=
  match c with
  | split_productions mo _ | write_production mo _ _
  | action_confirm mo | button_mark_done mo => existsb (Z.eqb mo) mos
  | _ => true
  end.

Section CommitSpec.
Context {H : Host}.

(** Every run of [m] leaves the calls already logged in place and
    appends only calls that satisfy [P]. *)
Definition emits {A} (P : host_call -> Prop) (m : M A) : Prop :=
  forall w, exists calls,
    snd (snd (m w)) = snd w ++ calls /\ Forall P calls.

(** A call that is not a split and that, when it addresses an order,
    addresses one of [mos]. *)
Definition order_call (mos : list Z) (c : host_call) : Prop :=
  is_split c = false /\ on_orders mos c = true.

End CommitSpec.

(** ** Sample data *)

Module Sample.

(** Products 1 and 2 are tracked by serial number, product 3 by lot. *)
Definition sample_tracking (p : product) : tracking_mode :=
  if (p =? 3)%Z then by_lot
  else if ((p =? 1) || (p =? 2))%Z then by_serial
  else none.

Definition sample_str_of_float (x : Q) : string :=
  str_of_int (Qnum x) +++ "/" +++ str_of_int (Zpos (Qden x)).

Definition sample_lot_name (l : lot) : string :=
  match l with
  | Id n => "LOT" +++ str_of_int n
  | NewId _ => "NEW"
  end.

(** Exact arithmetic; every lot has 3 units free and 2 reserved. *)
Definition exact_env : Env :=
  {| tracking := sample_tracking;
     display_name := fun p => "P" +++ str_of_int p;
     lot_name := sample_lot_name;
     float_add := Qplus;
     float_sub := Qminus;
     float_div := Qdiv;
     float_is_zero := fun v _ => Qeq_bool v 0;
     str_of_float := sample_str_of_float;
     get_available_and_reserved_quantities := fun _ => (3%Q, 2%Q) |}.

Definition line (p : product) (cell_lot finished : option lot) (q : Q)
  : matrix_line :=
  {| component_id := p;
     component_column_name := "P" +++ str_of_int p;
     component_lot_id := cell_lot;
     finished_lot_id := finished;
     finished_lot_name := option_map sample_lot_name finished;
     lot_qty := q |}.

Definition move (id : Z) (p : product) (q : Q) : stock_move :=
  {| move_id := id; move_product_id := p; move_product_qty := q;
     move_product_uom_qty := q; move_rounding := (1 # 100)%Q;
     move_location_id := 8; bom_line_id := None |}.

(** An order for [n] units consuming, per unit, two serials of product 1
    and one and a half units of the lot-tracked product 3. *)
Definition order (n : Z) : mrp_production :=
  {| product_qty := inject_Z n;
     lot_producing_id := None;
     move_raw_ids := [move 1 1 (inject_Z (2 * n)); move 2 3 (inject_Z (3 * n) / 2)%Q];
     move_byproduct_ids := [] |}.

(** A host that holds one order, never raises, and answers a split
    request with one new order per amount. *)
Definition quiet_host (n : Z) : Host :=
  {| hstate := unit;
     read_production := fun _ _ => order n;
     read_move := fun _ id => move id 1 2;
     read_move_lines := fun _ _ => [];
     host_exec := fun _ h => h;
     host_raises := fun _ _ => None;
     split_result := fun _ mo amounts =>
                       map (fun i => mo + Z.of_nat i) (seq 0 (List.length amounts)) |}.

(** A linear congruential generator. *)
Definition lcg : Random :=
  {| rng := Z;
     randint := fun a b g =>
                  (a + g mod (b - a + 1), (1103515245 * g + 12345) mod 2 ^ 31) |}.

End Sample.

(** ** Opening the wizard: [default_get] *)

(** What [default_get] may raise besides the exceptions of the generator. *)
Inductive default_get_exn : Type :=
| KeyError (key : string)
| AssertionError (msg : string)
| Raised (e : exn).

Inductive outcome (A : Type) : Type :=
| Returned (a : A)
| Failed (e : default_get_exn).
Arguments Returned {A} a.
Arguments Failed {A} e.

(** The two entries of [self.env.context] the function reads; [None] is
    a missing key, [Some None] a value that is [None] or [False]. *)
Record context : Type := {
  active_id : option (option Z);
  active_model : option string
}.

(** The dictionary of default values: the keys [default_get] sets, and
    the default of [include_lots] that [super().default_get] provides. *)
Record defaults : Type := {
  d_production_id : option Z;
  d_finished_lot_ids : option (list record_id);
  d_line_ids : option (list line_vals);
  d_include_lots : option bool
}.

Section Opening.
Context {E : Env}.

(** [self_include_lots] is what [self.include_lots] reads on the
    recordset the method is called on; [show_serial_matrix] is the field
    of that name on [mrp.production]; [res] is [super().default_get]. *)
Definition default_get (self_include_lots : bool)
    (browse : Z -> mrp_production) (show_serial_matrix : Z -> bool)
    (ctx : context) (res : defaults) : outcome defaults :=
  match active_id ctx with
  | None => Failed (KeyError "active_id")
  | Some production_id =>
      match active_model ctx with
      | None => Failed (KeyError "active_model")
      | Some model =>
          match production_id with
          | None => Returned res
          | Some pid =>
              if (pid =? 0)%Z then Returned res
              else if negb (String.eqb model "mrp.production")
              then Failed (AssertionError "Bad context propagation")
              else
                let production := browse pid in
                if negb (show_serial_matrix pid)
                then Failed (Raised (UserError
                       "The finished product of this MO is not tracked by serial numbers."))
                else
                  let finished_lots :=
                    match lot_producing_id production with
                    | Some l => [l]
                    | None => []
                    end in
                  match _get_matrix_lines self_include_lots production
                                          finished_lots with
                  | Raise e => Failed (Raised e)
                  | Ok matrix_lines =>
                      Returned {| d_production_id := Some pid;
                                  d_finished_lot_ids := Some finished_lots;
                                  d_line_ids := Some matrix_lines;
                                  d_include_lots := d_include_lots res |}
                  end
          end
      end
  end.

End Opening.

(** ** Further specification-side definitions *)

Section GeneratorSpec.
Context {E : Env}.

(** The move is set aside by the first loop (source line 140). *)
Definition skipped (move : stock_move) : bool :=
  float_is_zero (move_product_qty move) (move_rounding move).

(** What the quantity of the move is divided by (source lines 147-152). *)
Definition divisor (production : mrp_production) (move : stock_move) : Q :=
  match bom_line_id move with
  | Some boml => bom_product_qty boml
  | None => product_qty production
  end.

End GeneratorSpec.

(** The order with other raw moves. *)
Definition with_moves (moves : list stock_move) (p : mrp_production)
  : mrp_production :=
  {| product_qty := product_qty p;
     lot_producing_id := lot_producing_id p;
     move_raw_ids := moves;
     move_byproduct_ids := move_byproduct_ids p |}.

(** The wizard with other lines. *)
Definition with_line_ids (lines : list matrix_line) (rec : wizard) : wizard :=
  {| production_id := production_id rec;
     finished_lot_ids := finished_lot_ids rec;
     line_ids := lines;
     include_lots := include_lots rec |}.

(** What the rows ask of lot [k] in total, in exact arithmetic. *)
Definition requested (k : lot) (rows : list matrix_line) : Q :=
  fold_right (fun r acc => if assigned k r then (lot_qty r + acc)%Q else acc)
             0%Q rows.

Section LotSpec.
Context {E : Env}.

(** The differences and sums the lot pass computes for lot [k] while it
    walks [rows] after [earlier] are exact, as they are on quantities
    that floats represent exactly. *)
Definition exact_walk (k : lot) (earlier rows : list matrix_line) : Prop :=
  forall pre r post,
    rows = pre ++ r :: post ->
    component_lot_id r = Some k ->
    (float_sub (available r) (drawn_before k (earlier ++ pre))
     == available r - drawn_before k (earlier ++ pre))%Q
    /\ (float_add (drawn_before k (earlier ++ pre)) (lot_qty r)
        == drawn_before k (earlier ++ pre) + lot_qty r)%Q.

End LotSpec.

Definition is_mark_done (c : host_call) : bool :=
  match c with
  | button_mark_done _ => true
  | _ => false
  end.

(** The two calls that open the work on a unit: the write of the
    finished lot on an order and the confirmation of that order. *)
Definition is_order_step (c : host_call) : bool :=
  match c with
  | write_production _ _ _ | action_confirm _ => true
  | _ => false
  end.

(** What a finished lot asks of the order of its rank. *)
Definition unit_steps (mf : Z * lot) : list host_call :=
  [write_production (fst mf) (snd mf) 1%Q; action_confirm (fst mf)].

(** ** More sample data *)

Module MoreSamples.

(** An order of two units whose first unit already has finished lot 1. *)
Definition lotted_order : mrp_production :=
  {| product_qty := 2%Q;
     lot_producing_id := Some (Id 1);
     move_raw_ids := [Sample.move 1 1 4%Q];
     move_byproduct_ids := [] |}.

Definition lotted_host : Host :=
  {| hstate := unit;
     read_production := fun _ _ => lotted_order;
     read_move := fun _ id => Sample.move id 1 2%Q;
     read_move_lines := fun _ _ => [];
     host_exec := fun _ h => h;
     host_raises := fun _ _ => None;
     split_result := fun _ mo amounts =>
                       map (fun i => mo + Z.of_nat i) (seq 0 (List.length amounts)) |}.

Definition wizard_of (lots : list lot) (lines : list matrix_line) : wizard :=
  {| production_id := 10;
     finished_lot_ids := lots;
     line_ids := lines;
     include_lots := true |}.

End MoreSamples.

(** * Properties *)

(** ** Python values and dictionaries *)

Lemma record_id_eqb_spec (a b : record_id) :
  reflect (a = b) (record_id_eqb a b).
Proof.
  destruct a as [n | [n |]], b as [m | [m |]]; simpl;
    try (constructor; congruence).
  - destruct (Z.eqb_spec n m); constructor; congruence.
  - destruct (Z.eqb_spec n m); constructor; congruence.
Qed.

Lemma record_id_eqb_refl (a : record_id) : record_id_eqb a a = true.
Proof. destruct (record_id_eqb_spec a a); congruence. Qed.

Lemma record_id_eqb_neq (a b : record_id) :
  a <> b -> record_id_eqb a b = false.
Proof. destruct (record_id_eqb_spec a b); congruence. Qed.

Lemma Qltb_lt (x y : Q) : Qltb x y = true <-> (x < y)%Q.
Proof.
  unfold Qltb. rewrite negb_true_iff.
  destruct (Qle_bool y x) eqn:Hle.
  - apply Qle_bool_iff in Hle. split; [discriminate |].
    intro Hlt. exfalso. exact (Qlt_not_le _ _ Hlt Hle).
  - split; [| reflexivity]. intros _.
    apply Qnot_le_lt. intro Hc. apply Qle_bool_iff in Hc. congruence.
Qed.

Lemma append_nonempty (s t : string) : s <> "" -> s +++ t <> "".
Proof. destruct s; simpl; [congruence | discriminate]. Qed.

Lemma join_empty_iff (sep : string) (l : list string) :
  Forall (fun s => s <> "") l -> (join sep l = "" <-> l = []).
Proof.
  intros Hall. split.
  - destruct l as [| s rest]; [reflexivity |].
    inversion Hall as [| ? ? Hs _]; subst.
    simpl. destruct rest.
    + intro. contradiction.
    + intro Hj. exfalso. exact (append_nonempty _ _ Hs Hj).
  - intros ->. reflexivity.
Qed.

Section DictFacts.
Context {V : Type}.
Implicit Types (d : dict V) (k : lot) (v : V).

Lemma dict_get_setdefault_same d k v :
  dict_get (setdefault d k v) k
  = Some (match dict_get d k with Some x => x | None => v end).
Proof.
  induction d as [| [k' v'] d IH]; simpl.
  - now rewrite record_id_eqb_refl.
  - destruct (record_id_eqb k k') eqn:Ek; simpl; rewrite Ek; auto.
Qed.

Lemma dict_get_setdefault_other d k k' v :
  k' <> k -> dict_get (setdefault d k v) k' = dict_get d k'.
Proof.
  intros Hne. induction d as [| [k0 v0] d IH]; simpl.
  - now rewrite record_id_eqb_neq.
  - destruct (record_id_eqb k k0) eqn:Ek; simpl; [reflexivity |].
    now rewrite IH.
Qed.

Lemma dict_get_set_same d k v :
  dict_get (dict_set d k v) k = Some v.
Proof.
  induction d as [| [k' v'] d IH]; simpl.
  - now rewrite record_id_eqb_refl.
  - destruct (record_id_eqb k k') eqn:Ek; simpl; rewrite Ek; auto.
Qed.

Lemma dict_get_set_other d k k' v :
  k' <> k -> dict_get (dict_set d k v) k' = dict_get d k'.
Proof.
  intros Hne. induction d as [| [k0 v0] d IH]; simpl.
  - now rewrite record_id_eqb_neq.
  - destruct (record_id_eqb k k0) eqn:Ek; simpl.
    + destruct (record_id_eqb_spec k k0); [subst | discriminate].
      now rewrite record_id_eqb_neq.
    + now rewrite IH.
Qed.

Lemma dict_get_In d k v : dict_get d k = Some v -> In (k, v) d.
Proof.
  induction d as [| [k' v'] d IH]; simpl; [discriminate |].
  destruct (record_id_eqb_spec k k').
  - intros [= ->]. subst. now left.
  - intro. right. auto.
Qed.

Lemma dict_get_None_keys d k : dict_get d k = None -> ~ In k (map fst d).
Proof.
  induction d as [| [k' v'] d IH]; simpl; [tauto |].
  destruct (record_id_eqb_spec k k'); [discriminate |].
  intros Hn [Hk | Hk]; [congruence | exact (IH Hn Hk)].
Qed.

(** Keys keep their place: a new key goes last, a known key stays. *)
Lemma keys_setdefault d k v :
  map fst (setdefault d k v)
  = match dict_get d k with
    | Some _ => map fst d
    | None => map fst d ++ [k]
    end.
Proof.
  induction d as [| [k' v'] d IH]; simpl; [reflexivity |].
  destruct (record_id_eqb k k') eqn:Ek; simpl; [reflexivity |].
  rewrite IH. now destruct (dict_get d k).
Qed.

Lemma keys_dict_set d k v :
  map fst (dict_set d k v)
  = match dict_get d k with
    | Some _ => map fst d
    | None => map fst d ++ [k]
    end.
Proof.
  induction d as [| [k' v'] d IH]; simpl; [reflexivity |].
  destruct (record_id_eqb k k') eqn:Ek; simpl; [reflexivity |].
  rewrite IH. now destruct (dict_get d k).
Qed.

Lemma NoDup_keys_setdefault d k v :
  NoDup (map fst d) -> NoDup (map fst (setdefault d k v)).
Proof.
  intros Hnd. rewrite keys_setdefault.
  destruct (dict_get d k) eqn:Hg; [assumption |].
  apply NoDup_app; [assumption | repeat constructor; simpl; tauto |].
  intros x Hx [<- | []]. exact (dict_get_None_keys _ _ Hg Hx).
Qed.

Lemma NoDup_keys_dict_set d k v :
  NoDup (map fst d) -> NoDup (map fst (dict_set d k v)).
Proof.
  intros Hnd. rewrite keys_dict_set.
  destruct (dict_get d k) eqn:Hg; [assumption |].
  apply NoDup_app; [assumption | repeat constructor; simpl; tauto |].
  intros x Hx [<- | []]. exact (dict_get_None_keys _ _ Hg Hx).
Qed.

Lemma dict_item_setdefault_same d k v :
  dict_item (setdefault d k v) k v = dict_item d k v.
Proof.
  unfold dict_item. rewrite dict_get_setdefault_same.
  now destruct (dict_get d k).
Qed.

End DictFacts.

(** Selecting items of a dictionary keeps its keys distinct. *)
Lemma keys_filter_NoDup {V : Type} (keep : lot * V -> bool) (d : dict V) :
  NoDup (map fst d) -> NoDup (map fst (filter keep d)).
Proof.
  induction d as [| [k v] d IH]; simpl; intros Hnd; [constructor |].
  apply NoDup_cons_iff in Hnd. destruct Hnd as [Hfresh Hnd].
  destruct (keep (k, v)); simpl; [| now apply IH].
  apply NoDup_cons; [| now apply IH].
  rewrite in_map_iff. intros [[k' v'] [Hk Hin]]. simpl in Hk. subst k'.
  apply filter_In in Hin. apply Hfresh.
  apply in_map_iff. exists (k, v'). tauto.
Qed.

(** [unique] keeps exactly the records of its argument. *)
Lemma In_unique_from (x : lot) (l seen : list lot) :
  In x (fold_left (fun seen y => if mem_lot y seen then seen else seen ++ [y])
                  l seen)
  <-> In x seen \/ In x l.
Proof.
  revert seen. induction l as [| y l IH]; intros seen; simpl; [tauto |].
  rewrite IH. unfold mem_lot.
  destruct (existsb (record_id_eqb y) seen) eqn:Hm.
  - apply existsb_exists in Hm. destruct Hm as [z [Hz Hyz]].
    destruct (record_id_eqb_spec y z); [subst z | discriminate].
    intuition (subst; auto).
  - rewrite in_app_iff. simpl. tauto.
Qed.

Lemma In_unique (x : lot) (l : list lot) : In x (unique l) <-> In x l.
Proof. unfold unique. rewrite In_unique_from. simpl. tauto. Qed.

(** ** The warning aggregator *)

Section AggregatorFacts.
Context {E : Env}.

Lemma assigned_iff (k : lot) (r : matrix_line) :
  assigned k r = true <-> component_lot_id r = Some k.
Proof.
  unfold assigned. destruct (component_lot_id r) as [k0 |]; simpl.
  - destruct (record_id_eqb_spec k0 k); split; congruence.
  - split; discriminate.
Qed.

Lemma assigned_other (k k0 : lot) (r : matrix_line) :
  component_lot_id r = Some k0 -> k <> k0 -> assigned k r = false.
Proof.
  intros Hr Hne. destruct (assigned k r) eqn:Ha; [| reflexivity].
  apply assigned_iff in Ha. congruence.
Qed.

Lemma assigned_empty (k : lot) (r : matrix_line) :
  component_lot_id r = None -> assigned k r = false.
Proof. intros Hr. unfold assigned. now rewrite Hr. Qed.

(** *** Serial pass *)

Lemma count_serial_item (d : dict Z) (r : matrix_line) (k : lot) :
  dict_item (count_serial d r) k 0
  = dict_item d k 0 + (if assigned k r then 1 else 0).
Proof.
  unfold count_serial.
  destruct (component_lot_id r) as [k0 |] eqn:Hr.
  - destruct (record_id_eq_dec k k0) as [-> | Hne].
    + assert (Ha : assigned k0 r = true) by now apply assigned_iff.
      rewrite Ha. unfold dict_item at 1. rewrite dict_get_set_same.
      now rewrite dict_item_setdefault_same.
    + rewrite (assigned_other _ _ _ Hr Hne).
      unfold dict_item at 1.
      rewrite dict_get_set_other, dict_get_setdefault_other by assumption.
      fold (dict_item d k 0). lia.
  - rewrite (assigned_empty _ _ Hr). lia.
Qed.

Lemma count_serial_NoDup (d : dict Z) (r : matrix_line) :
  NoDup (map fst d) -> NoDup (map fst (count_serial d r)).
Proof.
  intros Hnd. unfold count_serial. destruct (component_lot_id r); [| assumption].
  now apply NoDup_keys_dict_set, NoDup_keys_setdefault.
Qed.

Lemma serial_counter_item (rows : list matrix_line) (d : dict Z) (k : lot) :
  dict_item (fold_left count_serial rows d) k 0
  = dict_item d k 0 + Z.of_nat (occurrences k rows).
Proof.
  revert d. induction rows as [| r rows IH]; intros d; simpl.
  - unfold occurrences. simpl. lia.
  - rewrite IH, count_serial_item. unfold occurrences. simpl.
    destruct (assigned k r); simpl; lia.
Qed.

Lemma serial_counter_NoDup (rows : list matrix_line) (d : dict Z) :
  NoDup (map fst d) -> NoDup (map fst (fold_left count_serial rows d)).
Proof.
  revert d. induction rows as [| r rows IH]; intros d Hnd; simpl; [assumption |].
  apply IH. now apply count_serial_NoDup.
Qed.

Lemma report_serial_fold (items : dict Z) (w : warnings) :
  fold_left report_serial items w
  = (fst w ++ map fst (filter (fun kv => (1 <? snd kv)%Z) items),
     snd w ++ map serial_msg
                  (map fst (filter (fun kv => (1 <? snd kv)%Z) items))).
Proof.
  revert w. induction items as [| [k c] items IH]; intros [wl wm]; simpl.
  - now rewrite !app_nil_r.
  - rewrite IH. destruct (1 <? c)%Z; simpl; [| reflexivity].
    now rewrite <- !app_assoc.
Qed.

(** The serial pass adds one lot and one message for each serial that
    is counted more than once, and nothing else. *)
Lemma serial_pass_adds (line_ids : list matrix_line) (w : warnings) :
  serial_pass line_ids w
  = (fst w ++ fst (serial_pass line_ids ([], [])),
     snd w ++ map serial_msg (fst (serial_pass line_ids ([], [])))).
Proof. unfold serial_pass. now rewrite !report_serial_fold. Qed.

Lemma serial_pass_count (line_ids : list matrix_line) (l : lot) :
  (2 <= occurrences l (filter is_serial_line line_ids))%nat ->
  count_occ record_id_eq_dec (fst (serial_pass line_ids ([], []))) l = 1%nat.
Proof.
  intros Hocc. unfold serial_pass. rewrite report_serial_fold. simpl.
  set (counter := fold_left count_serial (filter is_serial_line line_ids) []).
  assert (Hnd : NoDup (map fst counter))
    by (apply serial_counter_NoDup; constructor).
  assert (Hitem : dict_item counter l 0
                  = Z.of_nat (occurrences l (filter is_serial_line line_ids))).
  { unfold counter. rewrite serial_counter_item. reflexivity. }
  apply NoDup_count_occ'.
  - now apply keys_filter_NoDup.
  - unfold dict_item in Hitem.
    destruct (dict_get counter l) as [v |] eqn:Hg; [| lia].
    apply dict_get_In in Hg.
    apply in_map_iff. exists (l, v). split; [reflexivity |].
    apply filter_In. split; [assumption |]. simpl.
    apply Z.ltb_lt. lia.
Qed.

(** *** Lot pass *)

Lemma drawn_before_snoc (k : lot) (earlier : list matrix_line) (r : matrix_line) :
  drawn_before k (earlier ++ [r])
  = if assigned k r then float_add (drawn_before k earlier) (lot_qty r)
    else drawn_before k earlier.
Proof. unfold drawn_before. now rewrite fold_left_app. Qed.

Lemma check_lot_fold (rows earlier : list matrix_line) (d : dict Q)
    (w : warnings) :
  (forall k, dict_item d k 0%Q = drawn_before k earlier) ->
  snd (fold_left check_lot rows (d, w))
  = (fst w ++ flat_map cell (flagged_rows earlier rows),
     snd w ++ flat_map shortfall_msg (flagged_rows earlier rows)).
Proof.
  revert earlier d w.
  induction rows as [| r rows IH]; intros earlier d [wl wm] Hinv; simpl.
  - now rewrite !app_nil_r.
  - unfold short_at, shortfall_msg, cell, available.
    destruct (component_lot_id r) as [k0 |] eqn:Hr.
    + destruct (get_available_and_reserved_quantities r) as [free_qty reserved_qty]
        eqn:Hav. simpl fst; simpl snd.
      rewrite dict_item_setdefault_same, Hinv.
      rewrite (IH (earlier ++ [r])).
      * destruct (Qltb _ _); simpl.
        -- unfold shortfall_msg, cell, available. rewrite Hr, Hav. simpl.
           now rewrite <- !app_assoc.
        -- reflexivity.
      * intros k. rewrite drawn_before_snoc.
        destruct (record_id_eq_dec k k0) as [-> | Hne].
        -- assert (Ha : assigned k0 r = true) by now apply assigned_iff.
           rewrite Ha. unfold dict_item. now rewrite dict_get_set_same.
        -- rewrite (assigned_other _ _ _ Hr Hne). unfold dict_item.
           rewrite dict_get_set_other, dict_get_setdefault_other by assumption.
           apply Hinv.
    + simpl. apply IH. intros k.
      rewrite drawn_before_snoc, (assigned_empty _ _ Hr). apply Hinv.
Qed.

(** The lot pass flags exactly the rows the specification flags. *)
Lemma lot_pass_flagged (line_ids : list matrix_line) (w : warnings) :
  lot_pass line_ids w
  = (fst w ++ flat_map cell (flagged_rows [] (filter is_lot_line line_ids)),
     snd w ++ flat_map shortfall_msg
                       (flagged_rows [] (filter is_lot_line line_ids))).
Proof. unfold lot_pass. apply check_lot_fold. intros k. reflexivity. Qed.

End AggregatorFacts.

Section AggregatorStructure.
Context {E : Env}.

Lemma flagged_rows_app (earlier a b : list matrix_line) :
  flagged_rows earlier (a ++ b)
  = flagged_rows earlier a ++ flagged_rows (earlier ++ a) b.
Proof.
  revert earlier. induction a as [| r a IH]; intros earlier; simpl.
  - now rewrite app_nil_r.
  - rewrite IH, <- !app_assoc. reflexivity.
Qed.

Lemma short_at_iff (earlier : list matrix_line) (r : matrix_line) (k : lot) :
  component_lot_id r = Some k ->
  (short_at earlier r = true
   <-> (float_sub (available r) (drawn_before k earlier) < lot_qty r)%Q).
Proof. intros Hr. unfold short_at. rewrite Hr. apply Qltb_lt. Qed.

Lemma shortfall_msg_length (rows : list matrix_line) :
  List.length (flat_map shortfall_msg rows) = List.length (flat_map cell rows).
Proof.
  induction rows as [| r rows IH]; simpl; [reflexivity |].
  rewrite !length_app, IH. unfold shortfall_msg. now rewrite length_map.
Qed.

(** *** Unfilled cells *)

Lemma not_filled_iff (r : matrix_line) :
  not_filled r = true
  <-> (exists f, finished_lot_id r = Some f) /\ component_lot_id r = None.
Proof.
  unfold not_filled.
  destruct (finished_lot_id r) as [f |], (component_lot_id r) as [c |].
  - split; [discriminate | intros [_ Hc]; discriminate].
  - split; [| reflexivity]. intros _. split; [now exists f | reflexivity].
  - split; [discriminate | intros [_ Hc]; discriminate].
  - split; [discriminate | intros [[f Hf] _]; discriminate].
Qed.

Lemma In_mapped_finished_lot_id (rows : list matrix_line) (f : lot) :
  In f (mapped_finished_lot_id rows)
  <-> exists r, In r rows /\ finished_lot_id r = Some f.
Proof.
  unfold mapped_finished_lot_id. rewrite In_unique, in_flat_map.
  split; intros [r [Hin Hf]]; exists r; split; try assumption.
  - destruct (finished_lot_id r); simpl in Hf; [| contradiction].
    destruct Hf as [-> | []]. reflexivity.
  - rewrite Hf. now left.
Qed.

Lemma not_filled_pass_adds (line_ids : list matrix_line) (w : warnings) :
  not_filled_pass line_ids w
  = (fst w ++ fst (not_filled_pass line_ids ([], [])),
     snd w ++ snd (not_filled_pass line_ids ([], []))).
Proof.
  unfold not_filled_pass. destruct (filter not_filled line_ids); simpl.
  - rewrite !app_nil_r. now destruct w.
  - reflexivity.
Qed.

(** Whenever some row is unfilled, the pass adds the finished lots of all
    unfilled rows and one message listing their names. *)
Lemma not_filled_pass_some (line_ids : list matrix_line) (r : matrix_line) :
  In r line_ids -> not_filled r = true ->
  not_filled_pass line_ids ([], [])
  = (mapped_finished_lot_id (filter not_filled line_ids),
     [not_filled_msg (mapped_finished_lot_id (filter not_filled line_ids))]).
Proof.
  intros Hin Hnf. unfold not_filled_pass.
  destruct (filter not_filled line_ids) eqn:Hf; [| reflexivity].
  assert (Hr : In r (filter not_filled line_ids))
    by (apply filter_In; tauto).
  rewrite Hf in Hr. contradiction.
Qed.

Lemma not_filled_pass_balanced (line_ids : list matrix_line) :
  fst (not_filled_pass line_ids ([], [])) = []
  <-> snd (not_filled_pass line_ids ([], [])) = [].
Proof.
  unfold not_filled_pass.
  destruct (filter not_filled line_ids) as [| r rest] eqn:Hf; simpl; [tauto |].
  split; [| discriminate]. intros Hempty. exfalso.
  assert (Hr : In r (filter not_filled line_ids)) by (rewrite Hf; now left).
  apply filter_In in Hr. destruct Hr as [_ Hnf].
  apply not_filled_iff in Hnf. destruct Hnf as [[f Hfin] _].
  assert (Hin : In f (mapped_finished_lot_id (r :: rest))).
  { apply In_mapped_finished_lot_id. exists r. split; [now left | assumption]. }
  rewrite Hempty in Hin. contradiction.
Qed.

(** *** The three passes together *)

Lemma collect_warnings_parts (line_ids : list matrix_line) :
  collect_warnings line_ids
  = (fst (serial_pass line_ids ([], []))
       ++ flat_map cell (flagged_rows [] (filter is_lot_line line_ids))
       ++ fst (not_filled_pass line_ids ([], [])),
     map serial_msg (fst (serial_pass line_ids ([], [])))
       ++ flat_map shortfall_msg (flagged_rows [] (filter is_lot_line line_ids))
       ++ snd (not_filled_pass line_ids ([], []))).
Proof.
  unfold collect_warnings.
  rewrite not_filled_pass_adds, lot_pass_flagged, serial_pass_adds. simpl.
  now rewrite <- !app_assoc.
Qed.

Lemma serial_msg_nonempty (l : lot) : serial_msg l <> "".
Proof. discriminate. Qed.

Lemma lot_msg_nonempty (l : lot) (a q : Q) : lot_msg l a q <> "".
Proof. discriminate. Qed.

Lemma not_filled_msg_nonempty (lots : list lot) : not_filled_msg lots <> "".
Proof. discriminate. Qed.

Lemma lot_msg_not_serial (k l : lot) (a q : Q) : lot_msg k a q <> serial_msg l.
Proof. discriminate. Qed.

Lemma not_filled_msg_not_serial (lots : list lot) (l : lot) :
  not_filled_msg lots <> serial_msg l.
Proof. discriminate. Qed.

Lemma shortfall_msgs_spec (rows : list matrix_line) (m : string) :
  In m (flat_map shortfall_msg rows) -> exists k a q, m = lot_msg k a q.
Proof.
  intros Hin. apply in_flat_map in Hin. destruct Hin as [r [_ Hm]].
  unfold shortfall_msg in Hm. apply in_map_iff in Hm.
  destruct Hm as [k [<- _]]. eauto.
Qed.

Lemma not_filled_msgs_spec (line_ids : list matrix_line) (m : string) :
  In m (snd (not_filled_pass line_ids ([], []))) ->
  exists lots, m = not_filled_msg lots.
Proof.
  unfold not_filled_pass. destruct (filter not_filled line_ids); simpl.
  - contradiction.
  - intros [<- | []]. eauto.
Qed.

Lemma collect_warnings_msgs_nonempty (line_ids : list matrix_line) :
  Forall (fun s => s <> "") (snd (collect_warnings line_ids)).
Proof.
  rewrite collect_warnings_parts. simpl. apply Forall_forall. intros m Hin.
  apply in_app_or in Hin. destruct Hin as [Hin | Hin].
  - apply in_map_iff in Hin. destruct Hin as [l [<- _]].
    apply serial_msg_nonempty.
  - apply in_app_or in Hin. destruct Hin as [Hin | Hin].
    + apply shortfall_msgs_spec in Hin. destruct Hin as [k [a [q ->]]].
      apply lot_msg_nonempty.
    + apply not_filled_msgs_spec in Hin. destruct Hin as [lots ->].
      apply not_filled_msg_nonempty.
Qed.

Lemma collect_warnings_balanced (line_ids : list matrix_line) :
  fst (collect_warnings line_ids) = [] <-> snd (collect_warnings line_ids) = [].
Proof.
  rewrite collect_warnings_parts. simpl.
  pose proof (not_filled_pass_balanced line_ids) as Hnf.
  pose proof (shortfall_msg_length
                (flagged_rows [] (filter is_lot_line line_ids))) as Hlen.
  split; intros Hnil.
  - apply app_eq_nil in Hnil. destruct Hnil as [Hs Hrest].
    apply app_eq_nil in Hrest. destruct Hrest as [Hc Hn].
    rewrite Hs, Hc in *. simpl in *.
    apply length_zero_iff_nil in Hlen. rewrite Hlen. simpl. tauto.
  - apply app_eq_nil in Hnil. destruct Hnil as [Hs Hrest].
    apply app_eq_nil in Hrest. destruct Hrest as [Hc Hn].
    apply map_eq_nil in Hs. rewrite Hs, Hc in *. simpl in *.
    symmetry in Hlen. apply length_zero_iff_nil in Hlen. rewrite Hlen.
    simpl. tauto.
Qed.

Lemma compute_fields (line_ids : list matrix_line) :
  _compute_lot_selection_warning line_ids
  = {| lot_selection_warning_msg := join ", " (snd (collect_warnings line_ids));
       lot_selection_warning_ids := fst (collect_warnings line_ids);
       lot_selection_warning_count :=
         Z.of_nat (List.length (fst (collect_warnings line_ids))) |}.
Proof.
  unfold _compute_lot_selection_warning.
  now destruct (collect_warnings line_ids).
Qed.

End AggregatorStructure.

(** ** Statements about the warning aggregator *)

(** C2.  Lot consumption is cumulative and order-sensitive.  The lot pass
    of the aggregator walks the lot-tracked rows in order and flags
    exactly the rows [flagged_rows] flags: a row whose cell holds lot [k]
    is flagged exactly when the quantity available for the row, minus the
    quantity drawn from [k] by the rows before it, is less than the row's
    quantity.  In particular two rows on the same lot, each asking for 3
    with 5 available, yield one warning, for the second row (the two
    subtractions involved being exact). *)
Theorem lot_shortfall_is_cumulative (E : Env) :
  (forall line_ids w,
      lot_pass line_ids w
      = (fst w ++ flat_map cell (flagged_rows [] (filter is_lot_line line_ids)),
         snd w ++ flat_map shortfall_msg
                           (flagged_rows [] (filter is_lot_line line_ids))))
  /\ (forall before r after,
         flagged_rows [] (before ++ r :: after)
         = flagged_rows [] before
             ++ (if short_at before r then [r] else [])
             ++ flagged_rows (before ++ [r]) after)
  /\ (forall earlier r k,
         component_lot_id r = Some k ->
         (short_at earlier r = true
          <-> (float_sub (available r) (drawn_before k earlier) < lot_qty r)%Q))
  /\ (forall r1 r2 k,
         is_lot_line r1 = true -> is_lot_line r2 = true ->
         component_lot_id r1 = Some k -> component_lot_id r2 = Some k ->
         (lot_qty r1 == 3)%Q -> (lot_qty r2 == 3)%Q ->
         (available r1 == 5)%Q -> (available r2 == 5)%Q ->
         (float_sub (available r1) 0 == available r1 - 0)%Q ->
         (float_sub (available r2) (float_add 0 (lot_qty r1))
          == available r2 - (0 + lot_qty r1))%Q ->
         flagged_rows [] [r1; r2] = [r2]
         /\ lot_pass [r1; r2] ([], [])
            = ([k], [lot_msg k (available r2) (lot_qty r2)])).
Proof.
  split; [| split; [| split]].
  - intros. apply lot_pass_flagged.
  - intros before r after. rewrite flagged_rows_app. reflexivity.
  - intros. now apply short_at_iff.
  - intros r1 r2 k Ht1 Ht2 Hk1 Hk2 Hq1 Hq2 Ha1 Ha2 Hx1 Hx2.
    assert (H1 : short_at [] r1 = false).
    { destruct (short_at [] r1) eqn:Hs; [| reflexivity].
      apply (short_at_iff [] r1 k Hk1) in Hs.
      unfold drawn_before in Hs. simpl in Hs.
      rewrite Hx1, Ha1, Hq1 in Hs. exfalso. revert Hs. clear.
      unfold Qlt. simpl. lia. }
    assert (H2 : short_at [r1] r2 = true).
    { apply (short_at_iff [r1] r2 k Hk2).
      unfold drawn_before. simpl.
      assert (Has : assigned k r1 = true) by now apply assigned_iff.
      rewrite Has, Hx2, Ha2, Hq1, Hq2. clear.
      unfold Qlt. simpl. lia. }
    assert (Hf : flagged_rows [] [r1; r2] = [r2]).
    { simpl. rewrite H1, H2. reflexivity. }
    split; [assumption |].
    rewrite lot_pass_flagged. simpl filter. rewrite Ht1, Ht2, Hf.
    simpl. unfold shortfall_msg, cell. rewrite Hk2. reflexivity.
Qed.

(** C3.  When the same serial [l] sits in the cells of two (or more) rows
    of serial-tracked components, the aggregator produces exactly one
    duplicate warning for [l]: the serial pass lists [l] once, pairs every
    listed serial with the message "Serial number <name> selected several
    times" built from its own name, and the later passes add no message of
    that kind. *)
Theorem duplicate_serial_warned_once (E : Env)
    (line_ids : list matrix_line) (l : lot) :
  (2 <= occurrences l (filter is_serial_line line_ids))%nat ->
  let dup := fst (serial_pass line_ids ([], [])) in
  count_occ record_id_eq_dec dup l = 1%nat
  /\ snd (serial_pass line_ids ([], [])) = map serial_msg dup
  /\ serial_msg l = "Serial number " +++ lot_name l +++ " selected several times"
  /\ exists lots msgs,
       collect_warnings line_ids = (dup ++ lots, map serial_msg dup ++ msgs)
       /\ Forall (fun m => forall l', m <> serial_msg l') msgs.
Proof.
  intros Hocc dup. split; [| split; [| split]].
  - now apply serial_pass_count.
  - rewrite serial_pass_adds. reflexivity.
  - reflexivity.
  - rewrite collect_warnings_parts. fold dup.
    eexists. eexists. split; [reflexivity |].
    apply Forall_forall. intros m Hin l'.
    apply in_app_or in Hin. destruct Hin as [Hin | Hin].
    + apply shortfall_msgs_spec in Hin. destruct Hin as [k [a [q ->]]].
      apply lot_msg_not_serial.
    + apply not_filled_msgs_spec in Hin. destruct Hin as [lots ->].
      apply not_filled_msg_not_serial.
Qed.

(** C5.  A row whose finished unit is chosen and whose cell is empty is
    always flagged, whatever the other rows hold: its finished lot is
    among the warning lots, the message list carries the unfilled-cells
    message naming it, the warning count is positive and the warning
    message is not empty. *)
Theorem unfilled_cell_always_flagged (E : Env)
    (line_ids : list matrix_line) (r : matrix_line) (f : lot) :
  In r line_ids ->
  finished_lot_id r = Some f ->
  component_lot_id r = None ->
  let res := _compute_lot_selection_warning line_ids in
  In f (lot_selection_warning_ids res)
  /\ (0 < lot_selection_warning_count res)%Z
  /\ lot_selection_warning_msg res <> ""
  /\ exists lots,
       In f lots
       /\ In (lot_name f) (map lot_name lots)
       /\ In (not_filled_msg lots) (snd (collect_warnings line_ids)).
Proof.
  intros Hin Hf Hc res.
  assert (Hnf : not_filled r = true).
  { apply not_filled_iff. split; [now exists f | assumption]. }
  pose proof (not_filled_pass_some line_ids r Hin Hnf) as Hpass.
  set (lots := mapped_finished_lot_id (filter not_filled line_ids)) in *.
  assert (Hfl : In f lots).
  { apply In_mapped_finished_lot_id. exists r. split; [| assumption].
    apply filter_In. tauto. }
  assert (Hids : In f (fst (collect_warnings line_ids))).
  { rewrite collect_warnings_parts. simpl. rewrite Hpass. simpl.
    apply in_or_app. right. apply in_or_app. now right. }
  assert (Hmsg : In (not_filled_msg lots) (snd (collect_warnings line_ids))).
  { rewrite collect_warnings_parts. simpl. rewrite Hpass. simpl.
    apply in_or_app. right. apply in_or_app. right. now left. }
  subst res. rewrite compute_fields. simpl.
  split; [assumption |]. split; [| split].
  - destruct (fst (collect_warnings line_ids)); [contradiction | simpl; lia].
  - intro Hj.
    apply (join_empty_iff _ _ (collect_warnings_msgs_nonempty line_ids)) in Hj.
    rewrite Hj in Hmsg. contradiction.
  - exists lots. split; [assumption |]. split; [| assumption].
    now apply in_map.
Qed.


(** ** The matrix line generator *)

Lemma py_range_length (a b : Z) : List.length (py_range a b) = Z.to_nat (b - a).
Proof. unfold py_range. now rewrite length_map, length_seq. Qed.

Lemma py_range_succ (a : Z) (n : nat) :
  py_range a (a + Z.of_nat (S n)) = a :: py_range (a + 1) (a + 1 + Z.of_nat n).
Proof.
  unfold py_range.
  replace (a + Z.of_nat (S n) - a) with (Z.of_nat (S n)) by lia.
  replace (a + 1 + Z.of_nat n - (a + 1)) with (Z.of_nat n) by lia.
  rewrite !Nat2Z.id. simpl. f_equal; [lia |].
  rewrite <- seq_shift, map_map. apply map_ext. intros i. lia.
Qed.

(** [int()] agrees with the floor on floats that are not negative, and
    gives no positive count on negative ones. *)
Lemma int_of_float_floor (q : Q) : (0 <= q)%Q -> int_of_float q = Qfloor q.
Proof.
  destruct q as [n d]. unfold Qle, int_of_float, Qfloor. simpl. intros Hn.
  apply Z.quot_div_nonneg; lia.
Qed.

Lemma int_of_float_to_nat (q : Q) :
  Z.to_nat (int_of_float q) = Z.to_nat (Qfloor q).
Proof.
  destruct (Qlt_le_dec q 0) as [Hneg | Hpos].
  - destruct q as [n d]. unfold Qlt, int_of_float, Qfloor in *. simpl in *.
    assert (Hq : Z.quot n (Z.pos d) <= 0).
    { pose proof (Z.quot_pos (- n) (Z.pos d)) as Hp.
      rewrite Z.quot_opp_l in Hp by lia. lia. }
    assert (Hd : n / Z.pos d < 0) by (apply Z.div_lt_upper_bound; lia).
    lia.
  - now rewrite int_of_float_floor.
Qed.

Lemma int_of_float_integer (q : Q) (n : Z) :
  (q == inject_Z n)%Q -> int_of_float q = n.
Proof.
  destruct q as [a d]. unfold Qeq, int_of_float. simpl. intros Heq.
  replace a with (n * Z.pos d) by lia.
  apply Z.quot_mul. lia.
Qed.

Section GeneratorFacts.
Context {E : Env}.

Lemma prepare_component (ct : component_tuple) (fl : option lot)
    (num : option Z) :
  v_component_id (_prepare_matrix_line ct fl num) = fst (fst ct).
Proof. destruct ct as [[p i] q]. unfold _prepare_matrix_line. now destruct fl. Qed.

Lemma prepare_lot_qty (ct : component_tuple) (fl : option lot)
    (num : option Z) :
  v_lot_qty (_prepare_matrix_line ct fl num) = snd ct.
Proof. destruct ct as [[p i] q]. unfold _prepare_matrix_line. now destruct fl. Qed.

Lemma prepare_placeholder (ct : component_tuple) (i : Z) :
  v_finished_lot_name (_prepare_matrix_line ct None (Some i))
  = Some ("(New Lot " +++ str_of_int i +++ ")")
  /\ v_finished_lot_id (_prepare_matrix_line ct None (Some i)) = None.
Proof. destruct ct as [[p n] q]. split; reflexivity. Qed.

(** *** First loop *)

Lemma collect_components_acc (inc : bool) (p : mrp_production)
    (moves : list stock_move) (acc : list component_tuple) :
  collect_components inc p moves acc
  = rmap (app acc) (collect_components inc p moves []).
Proof.
  revert acc. induction moves as [| m moves IH]; intros acc; simpl.
  - now rewrite app_nil_r.
  - destruct (move_components inc p m) as [cs | e]; simpl; [| reflexivity].
    rewrite (IH (acc ++ cs)), (IH cs).
    destruct (collect_components inc p moves []); simpl; [| reflexivity].
    now rewrite app_assoc.
Qed.

(** The tuples of a move sit between those of the moves before it and
    those of the moves after it. *)
Lemma collect_components_middle (inc : bool) (p : mrp_production)
    (before after : list stock_move) (m : stock_move)
    (tracked : list component_tuple) :
  collect_components inc p (before ++ m :: after) [] = Ok tracked ->
  exists pre rows post,
    move_components inc p m = Ok rows /\ tracked = pre ++ rows ++ post.
Proof.
  revert tracked. induction before as [| b before IH]; intros tracked; simpl.
  - destruct (move_components inc p m) as [rows | e]; simpl; [| discriminate].
    rewrite collect_components_acc.
    destruct (collect_components inc p after []) as [post | e]; simpl;
      [| discriminate].
    intros [= <-]. exists [], rows, post. auto.
  - destruct (move_components inc p b) as [cs | e]; simpl; [| discriminate].
    rewrite collect_components_acc.
    destruct (collect_components inc p (before ++ m :: after) [])
      as [t |] eqn:Ht; simpl; [| discriminate].
    intros [= <-]. destruct (IH t eq_refl) as [pre [rows [post [Hm ->]]]].
    exists (cs ++ pre), rows, post. split; [assumption |].
    now rewrite <- app_assoc.
Qed.

(** The same, naming what the moves before and after contribute. *)
Lemma collect_components_split (inc : bool) (p : mrp_production)
    (before after : list stock_move) (m : stock_move)
    (tracked : list component_tuple) :
  collect_components inc p (before ++ m :: after) [] = Ok tracked ->
  exists pre rows post,
    collect_components inc p before [] = Ok pre
    /\ move_components inc p m = Ok rows
    /\ collect_components inc p after [] = Ok post
    /\ tracked = pre ++ rows ++ post.
Proof.
  revert tracked. induction before as [| b before IH]; intros tracked; simpl.
  - destruct (move_components inc p m) as [rows | e]; simpl; [| discriminate].
    rewrite collect_components_acc.
    destruct (collect_components inc p after []) as [post | e]; simpl;
      [| discriminate].
    intros [= <-]. exists [], rows, post. auto.
  - destruct (move_components inc p b) as [cs | e]; simpl; [| discriminate].
    rewrite collect_components_acc.
    destruct (collect_components inc p (before ++ m :: after) [])
      as [t |] eqn:Ht; simpl; [| discriminate].
    intros [= <-].
    destruct (IH t eq_refl) as [pre [rows [post [Hpre [Hm [Hpost ->]]]]]].
    exists (cs ++ pre), rows, post.
    rewrite (collect_components_acc inc p before cs), Hpre. simpl.
    repeat split; try assumption. now rewrite <- app_assoc.
Qed.

(** *** Second loop *)

Lemma group_loop_lines (n : nat) (tracked : list component_tuple)
    (st : gen_state) :
  current_lot st = None ->
  matrix_lines (group_loop n tracked st)
  = matrix_lines st
      ++ flat_map (group_rows tracked)
                  (group_heads n (finished_lots st) (new_lot_number st)).
Proof.
  revert st. induction n as [| n IH]; intros st Hcur; simpl.
  - now rewrite app_nil_r.
  - unfold group_step. rewrite Hcur.
    destruct (finished_lots st) as [| f rest] eqn:Hl.
    + rewrite IH by reflexivity. simpl. now rewrite <- app_assoc.
    + rewrite IH by reflexivity. simpl. now rewrite <- app_assoc.
Qed.

Lemma get_matrix_lines_groups (inc : bool) (p : mrp_production)
    (lots : list lot) :
  _get_matrix_lines inc p lots
  = rmap (fun tracked =>
            flat_map (group_rows tracked)
                     (group_heads (Z.to_nat (int_of_float (product_qty p)))
                                  lots 0))
         (collect_components inc p (move_raw_ids p) []).
Proof.
  unfold _get_matrix_lines, rmap.
  destruct (collect_components inc p (move_raw_ids p) []); simpl; [| reflexivity].
  now rewrite group_loop_lines.
Qed.

Lemma group_heads_placeholders (n : nat) (num : Z) :
  group_heads n [] num
  = map (fun i => (None, i)) (py_range (num + 1) (num + 1 + Z.of_nat n)).
Proof.
  revert num. induction n as [| n IH]; intros num.
  - unfold py_range. replace (num + 1 + Z.of_nat 0 - (num + 1)) with 0 by lia.
    reflexivity.
  - rewrite py_range_succ. simpl. now rewrite IH.
Qed.

Lemma group_heads_length (n : nat) (lots : list lot) (num : Z) :
  List.length (group_heads n lots num) = n.
Proof.
  revert lots num. induction n as [| n IH]; intros lots num; simpl; [reflexivity |].
  destruct lots; simpl; now rewrite IH.
Qed.

End GeneratorFacts.

Section LotInclusion.
Context {E : Env}.

Lemma move_components_without_lots (p : mrp_production) (m : stock_move) :
  move_components false p m
  = rmap (filter not_lot_tuple) (move_components true p m).
Proof.
  unfold move_components.
  destruct (float_is_zero _ _); [reflexivity |].
  destruct (qty_per_finished_unit p m) as [q | e]; simpl; [| reflexivity].
  destruct (tracking (move_product_id m)) eqn:Ht; simpl.
  - reflexivity.
  - unfold not_lot_tuple. simpl. now rewrite Ht.
  - f_equal. induction (py_range 1 (int_of_float q + 1)) as [| i l IH];
      simpl; [reflexivity |].
    unfold not_lot_tuple at 1. simpl. rewrite Ht. simpl.
    injection IH as IH. now rewrite <- IH.
Qed.

Lemma collect_components_without_lots (p : mrp_production)
    (moves : list stock_move) (acc : list component_tuple) :
  collect_components false p moves (filter not_lot_tuple acc)
  = rmap (filter not_lot_tuple) (collect_components true p moves acc).
Proof.
  revert acc. induction moves as [| m moves IH]; intros acc; simpl.
  - reflexivity.
  - rewrite move_components_without_lots.
    destruct (move_components true p m) as [cs | e]; simpl; [| reflexivity].
    now rewrite <- filter_app, IH.
Qed.

Lemma group_rows_without_lots (tracked : list component_tuple)
    (head : option lot * Z) :
  group_rows (filter not_lot_tuple tracked) head
  = filter (fun v => negb (vals_by_lot v)) (group_rows tracked head).
Proof.
  unfold group_rows. induction tracked as [| ct tracked IH]; simpl; [reflexivity |].
  unfold vals_by_lot at 1. rewrite prepare_component.
  unfold not_lot_tuple at 1.
  destruct (negb (tracking_eqb (tracking (fst (fst ct))) by_lot)); simpl;
    now rewrite IH.
Qed.

Lemma get_matrix_lines_without_lots (p : mrp_production) (lots : list lot) :
  _get_matrix_lines false p lots
  = rmap (filter (fun v => negb (vals_by_lot v))) (_get_matrix_lines true p lots).
Proof.
  rewrite !get_matrix_lines_groups.
  change (@nil component_tuple) with (filter not_lot_tuple []) at 1.
  rewrite collect_components_without_lots.
  destruct (collect_components true p (move_raw_ids p) []) as [t | e]; simpl;
    [| reflexivity].
  f_equal.
  induction (group_heads _ lots 0) as [| h hs IH]; simpl; [reflexivity |].
  now rewrite filter_app, group_rows_without_lots, IH.
Qed.

Lemma filter_lot_without_lots (l : list line_vals) :
  filter vals_by_lot (filter (fun v => negb (vals_by_lot v)) l) = [].
Proof.
  induction l as [| v l IH]; simpl; [reflexivity |].
  destruct (vals_by_lot v) eqn:Hv; simpl; [assumption |].
  now rewrite Hv.
Qed.

Lemma filter_serial_without_lots (l : list line_vals) :
  filter vals_by_serial (filter (fun v => negb (vals_by_lot v)) l)
  = filter vals_by_serial l.
Proof.
  induction l as [| v l IH]; simpl; [reflexivity |].
  assert (Hv : vals_by_lot v = true -> vals_by_serial v = false).
  { unfold vals_by_lot, vals_by_serial.
    now destruct (tracking (v_component_id v)). }
  destruct (vals_by_lot v); simpl.
  - now rewrite IH, Hv.
  - now rewrite IH.
Qed.

Lemma filter_new_line_lot (l : list line_vals) :
  filter is_lot_line (map new_line l) = map new_line (filter vals_by_lot l).
Proof.
  induction l as [| v l IH]; simpl; [reflexivity |].
  unfold is_lot_line at 1, vals_by_lot at 1. simpl.
  destruct (tracking_eqb _ _); simpl; now rewrite IH.
Qed.

Lemma filter_new_line_serial (l : list line_vals) :
  filter is_serial_line (map new_line l)
  = map new_line (filter vals_by_serial l).
Proof.
  induction l as [| v l IH]; simpl; [reflexivity |].
  unfold is_serial_line at 1, vals_by_serial at 1. simpl.
  destruct (tracking_eqb _ _); simpl; now rewrite IH.
Qed.

(** Every tuple of a serial-tracked component carries quantity 1. *)
Lemma move_components_serial_unit (inc : bool) (p : mrp_production)
    (m : stock_move) (cs : list component_tuple) :
  move_components inc p m = Ok cs ->
  Forall (fun ct => tracking (fst (fst ct)) = by_serial -> snd ct = 1%Q) cs.
Proof.
  unfold move_components.
  destruct (float_is_zero _ _); [intros [= <-]; constructor |].
  destruct (qty_per_finished_unit p m) as [q | e]; simpl; [| discriminate].
  destruct (tracking (move_product_id m)) eqn:Ht.
  - intros [= <-]. constructor.
  - destruct inc; intros [= <-]; repeat constructor. simpl. congruence.
  - intros [= <-]. apply Forall_forall. intros ct Hin.
    apply in_map_iff in Hin. destruct Hin as [i [<- _]]. reflexivity.
Qed.

Lemma collect_components_serial_unit (inc : bool) (p : mrp_production)
    (moves : list stock_move) (acc tracked : list component_tuple) :
  Forall (fun ct => tracking (fst (fst ct)) = by_serial -> snd ct = 1%Q) acc ->
  collect_components inc p moves acc = Ok tracked ->
  Forall (fun ct => tracking (fst (fst ct)) = by_serial -> snd ct = 1%Q) tracked.
Proof.
  revert acc. induction moves as [| m moves IH]; intros acc Hacc; simpl.
  - now intros [= <-].
  - destruct (move_components inc p m) as [cs |] eqn:Hm; simpl; [| discriminate].
    apply IH. apply Forall_app. split; [assumption |].
    exact (move_components_serial_unit _ _ _ _ Hm).
Qed.

End LotInclusion.

(** ** Statements about the generator *)

(** C4.  A consumption requirement (a raw move that is not skipped as
    zero) of a serial-tracked component with per-finished-unit quantity
    [q] contributes exactly floor(q) tuples, and each of its rows has
    quantity 1 ([int(q)] is the floor for [q >= 0]; a negative [q] gives
    no row).  In what the generator returns, the group of every finished
    unit is made of the rows of the moves before it, then exactly these
    floor(q) rows, then the rows of the moves after it.  Moreover every
    row the generator emits for a serial-tracked component has
    quantity 1. *)
Theorem serial_component_unit_rows (E : Env) (inc : bool)
    (production : mrp_production) (before after : list stock_move)
    (move : stock_move) (q : Q) :
  move_raw_ids production = before ++ move :: after ->
  tracking (move_product_id move) = by_serial ->
  float_is_zero (move_product_qty move) (move_rounding move) = false ->
  qty_per_finished_unit production move = Ok q ->
  let rows := map (fun i => (move_product_id move, i, 1%Q))
                  (py_range 1 (int_of_float q + 1)) in
  move_components inc production move = Ok rows
  /\ List.length rows = Z.to_nat (Qfloor q)
  /\ ((0 <= q)%Q -> Z.of_nat (List.length rows) = Qfloor q)
  /\ (forall head,
         List.length (group_rows rows head) = Z.to_nat (Qfloor q)
         /\ Forall (fun v => v_component_id v = move_product_id move
                             /\ v_lot_qty v = 1%Q)
                   (group_rows rows head))
  /\ (forall finished_lots lines,
         _get_matrix_lines inc production finished_lots = Ok lines ->
         (exists pre post,
             collect_components inc production before [] = Ok pre
             /\ collect_components inc production after [] = Ok post
             /\ lines
                = flat_map (fun head => group_rows pre head
                                          ++ group_rows rows head
                                          ++ group_rows post head)
                           (group_heads
                              (Z.to_nat (int_of_float (product_qty production)))
                              finished_lots 0))
         /\ Forall (fun v => vals_by_serial v = true -> v_lot_qty v = 1%Q)
                   lines).
Proof.
  intros Hmoves Ht Hnz Hq rows.
  assert (Hmc : move_components inc production move = Ok rows).
  { unfold move_components. rewrite Hnz, Hq. simpl. now rewrite Ht. }
  assert (Hlen : List.length rows = Z.to_nat (Qfloor q)).
  { unfold rows. rewrite length_map, py_range_length.
    replace (int_of_float q + 1 - 1) with (int_of_float q) by lia.
    apply int_of_float_to_nat. }
  split; [assumption |]. split; [assumption |]. split; [| split].
  - intros Hpos. rewrite Hlen. apply Z2Nat.id.
    rewrite <- int_of_float_floor by assumption.
    destruct q as [n d]. unfold Qle, int_of_float in *. simpl in *.
    apply Z.quot_pos; lia.
  - intros head. unfold group_rows. rewrite length_map. split; [assumption |].
    apply Forall_forall. intros v Hin. apply in_map_iff in Hin.
    destruct Hin as [ct [<- Hct]]. rewrite prepare_component, prepare_lot_qty.
    unfold rows in Hct. apply in_map_iff in Hct.
    destruct Hct as [i [<- _]]. auto.
  - intros finished_lots lines Hgen.
    rewrite get_matrix_lines_groups in Hgen. unfold rmap, rbind in Hgen.
    destruct (collect_components inc production (move_raw_ids production) [])
      as [tracked |] eqn:Hcc; [| discriminate].
    injection Hgen as <-. split.
    + rewrite Hmoves in Hcc.
      destruct (collect_components_split _ _ _ _ _ _ Hcc)
        as [pre [rows' [post [Hpre [Hrows [Hpost ->]]]]]].
      assert (rows' = rows) by congruence. subst rows'.
      exists pre, post. split; [assumption |]. split; [assumption |].
      apply flat_map_ext. intros head.
      unfold group_rows. now rewrite !map_app.
    + assert (Hunit : Forall (fun ct => tracking (fst (fst ct)) = by_serial ->
                                        snd ct = 1%Q) tracked).
      { apply (collect_components_serial_unit
                 inc production (move_raw_ids production) [] tracked);
          [constructor | assumption]. }
      apply Forall_forall. intros v Hin Hser.
      apply in_flat_map in Hin. destruct Hin as [head [_ Hin]].
      unfold group_rows in Hin. apply in_map_iff in Hin.
      destruct Hin as [ct [<- Hct]].
      rewrite prepare_lot_qty. rewrite Forall_forall in Hunit.
      apply (Hunit ct Hct).
      unfold vals_by_serial in Hser. rewrite prepare_component in Hser.
      now destruct (tracking (fst (fst ct))).
Qed.

(** C7.  Regenerating with lot-inclusion disabled gives the rows obtained
    with lot-inclusion enabled minus those of lot-tracked components: no
    row of a lot-tracked component remains and the rows of serial-tracked
    components are the same, in the same order.  When one regeneration
    raises, the other raises the same exception. *)
Theorem lot_inclusion_toggle (E : Env) (browse : Z -> mrp_production)
    (rec : wizard) :
  _get_matrix_lines false (browse (production_id rec)) (finished_lot_ids rec)
  = rmap (filter (fun v => negb (vals_by_lot v)))
         (_get_matrix_lines true (browse (production_id rec))
                            (finished_lot_ids rec))
  /\ match _onchange_finished_lot_ids browse (with_include_lots false rec),
           _onchange_finished_lot_ids browse (with_include_lots true rec) with
     | Ok off, Ok on =>
         filter is_lot_line (line_ids off) = []
         /\ filter is_serial_line (line_ids off)
            = filter is_serial_line (line_ids on)
     | Raise e, Raise e' => e = e'
     | _, _ => False
     end.
Proof.
  split; [apply get_matrix_lines_without_lots |].
  unfold _onchange_finished_lot_ids. simpl.
  rewrite get_matrix_lines_without_lots.
  destruct (_get_matrix_lines true (browse (production_id rec))
                              (finished_lot_ids rec)) as [on | e]; simpl;
    [| reflexivity].
  rewrite !filter_new_line_lot, !filter_new_line_serial.
  now rewrite filter_lot_without_lots, filter_serial_without_lots.
Qed.

(** C8 as the specification words it fails: for an order of two units
    with no finished lot chosen, no row carries the label "New Lot 1" or
    "New Lot 2"; the labels are "(New Lot 1)" and "(New Lot 2)". *)
Lemma placeholder_label_counterexample :
  exists lines,
    _get_matrix_lines (E := Sample.exact_env) true (Sample.order 2) [] = Ok lines
    /\ map v_finished_lot_name lines
       = [Some "(New Lot 1)"; Some "(New Lot 1)"; Some "(New Lot 1)";
          Some "(New Lot 2)"; Some "(New Lot 2)"; Some "(New Lot 2)"]
    /\ ~ In (Some "New Lot 1") (map v_finished_lot_name lines)
    /\ ~ In (Some "New Lot 2") (map v_finished_lot_name lines).
Proof.
  eexists. split; [vm_compute; reflexivity |].
  split; [reflexivity |].
  split; simpl; intuition discriminate.
Qed.

(** C8, amended.  For an order with target quantity [N] and no finished
    lot chosen, the generator produces [N] groups, one per number from 1
    to [N] in order; group [i] holds one row per tracked component tuple,
    each labelled "(New Lot i)" (with the parentheses) and bound to no
    finished lot. *)
Theorem placeholder_groups_labelled (E : Env) (inc : bool)
    (production : mrp_production) (tracked : list component_tuple) (N : Z) :
  0 <= N ->
  (product_qty production == inject_Z N)%Q ->
  collect_components inc production (move_raw_ids production) [] = Ok tracked ->
  _get_matrix_lines inc production []
  = Ok (flat_map (fun i => group_rows tracked (None, i)) (py_range 1 (N + 1)))
  /\ py_range 1 (N + 1) = map Z.of_nat (seq 1 (Z.to_nat N))
  /\ forall i,
       List.length (group_rows tracked (None, i)) = List.length tracked
       /\ Forall (fun v =>
                    v_finished_lot_name v
                    = Some ("(New Lot " +++ str_of_int i +++ ")")
                    /\ v_finished_lot_id v = None)
                 (group_rows tracked (None, i)).
Proof.
  intros HN Hqty Hcc. split; [| split].
  - rewrite get_matrix_lines_groups, Hcc. simpl. f_equal.
    rewrite (int_of_float_integer _ _ Hqty), group_heads_placeholders.
    rewrite Z2Nat.id by assumption.
    replace (0 + 1 + N) with (N + 1) by lia. change (0 + 1) with 1.
    rewrite flat_map_concat_map, map_map, <- flat_map_concat_map.
    reflexivity.
  - unfold py_range. replace (N + 1 - 1) with N by lia.
    rewrite <- seq_shift, map_map. apply map_ext. intros a. lia.
  - intros i. unfold group_rows. rewrite length_map. split; [reflexivity |].
    apply Forall_forall. intros v Hin. apply in_map_iff in Hin.
    destruct Hin as [ct [<- _]]. apply prepare_placeholder.
Qed.

(** ** Commit *)

Section CommitFacts.
Context {E : Env} {H : Host}.

Lemma emits_ret {A} (P : host_call -> Prop) (a : A) : emits P (ret a).
Proof. intros w. exists []. simpl. now rewrite app_nil_r. Qed.

Lemma emits_raise {A} (P : host_call -> Prop) (e : exn) :
  emits P (@raise H A e).
Proof. intros w. exists []. simpl. now rewrite app_nil_r. Qed.

Lemma emits_read {A} (P : host_call -> Prop) (f : hstate -> A) :
  emits P (read f).
Proof. intros w. exists []. simpl. now rewrite app_nil_r. Qed.

Lemma emits_lift {A} (P : host_call -> Prop) (r : result A) :
  emits P (lift r).
Proof. intros w. exists []. simpl. now rewrite app_nil_r. Qed.

Lemma emits_call (P : host_call -> Prop) (c : host_call) :
  P c -> emits P (call c).
Proof.
  intros Hc w. exists [c]. unfold call.
  destruct (host_raises c (fst w)); simpl; auto.
Qed.

Lemma emits_bind {A B} (P : host_call -> Prop) (m : M A) (k : A -> M B) :
  emits P m -> (forall a, emits P (k a)) -> emits P (bind m k).
Proof.
  intros Hm Hk w. unfold bind.
  destruct (Hm w) as [c1 [Hlog1 HP1]].
  destruct (m w) as [[a | e] w1]; simpl in *.
  - destruct (Hk a w1) as [c2 [Hlog2 HP2]].
    exists (c1 ++ c2). rewrite Hlog2, Hlog1, app_assoc. split; [reflexivity |].
    apply Forall_app. auto.
  - exists c1. auto.
Qed.

Lemma emits_for_each {A} (P : host_call -> Prop) (l : list A)
    (body : A -> M unit) :
  (forall x, In x l -> emits P (body x)) -> emits P (for_each l body).
Proof.
  induction l as [| x l IH]; intros Hbody; simpl.
  - apply emits_ret.
  - apply emits_bind.
    + apply Hbody. now left.
    + intros _. apply IH. intros y Hy. apply Hbody. now right.
Qed.

Lemma reserve_move_emits (mos : list Z) (self : wizard) (mo move : Z) :
  emits (order_call mos) (reserve_move self mo move).
Proof.
  unfold reserve_move.
  apply emits_bind; [apply emits_read | intros mo_lot].
  apply emits_bind; [apply emits_read | intros mv].
  apply emits_bind.
  - destruct (filter _ (line_ids self)) as [| l0 ls].
    + apply emits_call. split; reflexivity.
    + apply emits_bind; [apply emits_lift | intros l1].
      apply emits_call. split; reflexivity.
  - intros _. apply emits_bind; [apply emits_read | intros lines].
    apply emits_for_each. intros line _. apply emits_call. split; reflexivity.
Qed.

Lemma on_orders_member (mos : list Z) (mo : Z) :
  In mo mos -> existsb (Z.eqb mo) mos = true.
Proof.
  intros Hin. apply existsb_exists. exists mo. split; [assumption |].
  apply Z.eqb_refl.
Qed.

Lemma produce_unit_emits (self : wizard) (mos : mo_collection)
    (item : nat * lot) :
  emits (order_call (mo_items mos)) (produce_unit self mos item).
Proof.
  destruct item as [index finished_lot]. unfold produce_unit.
  destruct (nth_error (mo_items mos) index) as [mo |] eqn:Hnth;
    [| apply emits_raise].
  apply nth_error_In in Hnth.
  apply emits_bind.
  { apply emits_call. split; [reflexivity |]. simpl.
    now apply on_orders_member. }
  intros _. apply emits_bind.
  { apply emits_call. split; [reflexivity |]. simpl.
    now apply on_orders_member. }
  intros _. apply emits_bind; [apply emits_read | intros moves].
  apply emits_for_each. intros move _. apply reserve_move_emits.
Qed.

Lemma produce_all_emits (self : wizard) (mos : mo_collection) :
  emits (order_call (mo_items mos)) (produce_all self mos).
Proof.
  unfold produce_all. apply emits_bind.
  - apply emits_for_each. intros item _. apply produce_unit_emits.
  - intros _. apply emits_bind.
    + apply emits_for_each. intros mo Hin. apply emits_call.
      split; [reflexivity |]. simpl. now apply on_orders_member.
    + intros _. destruct mos; [apply emits_ret | apply emits_raise].
Qed.

Lemma produce_all_list_raises (self : wizard) (items : list Z) (w w' : world)
    (a : act_window) :
  produce_all self (PyList items) w <> (Ok a, w').
Proof.
  unfold produce_all, bind.
  destruct (for_each _ _ w) as [[[] | e] w1]; [| discriminate].
  destruct (for_each _ _ w1) as [[[] | e] w2]; discriminate.
Qed.

Lemma commit_split_run (self : wizard) (w : world) :
  Qltb 1 (product_qty (read_production (fst w) (production_id self))) = true ->
  let mo := production_id self in
  let c := split_productions mo (map (fun _ => 1%Z) (finished_lot_ids self)) in
  let w1 := (host_exec c (fst w), snd w ++ [c]) in
  commit self w
  = match host_raises c (fst w) with
    | Some e => (Raise e, w1)
    | None =>
        produce_all self
          (Recordset (split_result (fst w1) mo
                        (map (fun _ => 1%Z) (finished_lot_ids self)))) w1
    end.
Proof.
  intros Hq. unfold commit, bind, read, call, ret. simpl. rewrite Hq.
  now destruct (host_raises _ (fst w)).
Qed.

Lemma commit_direct_run (self : wizard) (w : world) :
  Qltb 1 (product_qty (read_production (fst w) (production_id self))) = false ->
  commit self w = produce_all self (PyList [production_id self]) w.
Proof.
  intros Hq. unfold commit, bind, read, ret. simpl. rewrite Hq.
  now destruct (produce_all self (PyList [production_id self]) w) as [[a | e] w'].
Qed.

Lemma unit_amounts (lots : list lot) :
  map (fun _ => 1%Z) lots = repeat 1%Z (List.length lots).
Proof. induction lots; simpl; congruence. Qed.

Lemma Qltb_false (x y : Q) : Qltb x y = false <-> ~ (x < y)%Q.
Proof.
  rewrite <- Qltb_lt. destruct (Qltb x y); split; congruence.
Qed.

Lemma validate_without_warnings (self : wizard) :
  lot_selection_warning_count (_compute_lot_selection_warning (line_ids self))
  = 0%Z ->
  button_validate self = commit self.
Proof. intros Hc. unfold button_validate. now rewrite Hc. Qed.

(** On the direct path the result is never a value: the list [mos] has
    no attribute [ids]. *)
Lemma commit_direct_raises (self : wizard) (w : world) :
  ~ (1 < product_qty (read_production (fst w) (production_id self)))%Q ->
  forall a w', commit self w <> (Ok a, w').
Proof.
  intros Hq a w'. apply Qltb_false in Hq.
  rewrite commit_direct_run by assumption. apply produce_all_list_raises.
Qed.

End CommitFacts.

Section CommitRuns.
Context {E : Env} {H : Host}.

Lemma emits_weaken {A} (P Q : host_call -> Prop) (m : M A) :
  (forall c, P c -> Q c) -> emits P m -> emits Q m.
Proof.
  intros HPQ Hm w. destruct (Hm w) as [calls [Hlog HP]].
  exists calls. split; [assumption |].
  eapply Forall_impl; [| exact HP]. exact HPQ.
Qed.

(** A computation that begins with the call [c] logs [c] first. *)
Lemma call_first {A} (P : host_call -> Prop) (c : host_call) (k : unit -> M A) :
  (forall u, emits P (k u)) ->
  forall w, exists more,
    snd (snd (bind (call c) k w)) = snd w ++ c :: more /\ Forall P more.
Proof.
  intros Hk w. unfold bind, call.
  destruct (host_raises c (fst w)).
  - exists []. simpl. auto.
  - destruct (Hk tt (host_exec c (fst w), snd w ++ [c])) as [more [Hlog HP]].
    exists more. rewrite Hlog. simpl. now rewrite <- app_assoc.
Qed.

Lemma then_first {A B} (P : host_call -> Prop) (c : host_call) (m : M A)
    (k : A -> M B) :
  (forall w, exists more,
      snd (snd (m w)) = snd w ++ c :: more /\ Forall P more) ->
  (forall a, emits P (k a)) ->
  forall w, exists more,
    snd (snd (bind m k w)) = snd w ++ c :: more /\ Forall P more.
Proof.
  intros Hm Hk w. unfold bind. destruct (Hm w) as [m1 [Hlog1 HP1]].
  destruct (m w) as [[a | e] w1]; simpl in *.
  - destruct (Hk a w1) as [m2 [Hlog2 HP2]].
    exists (m1 ++ m2). rewrite Hlog2, Hlog1, <- app_assoc. simpl.
    split; [reflexivity |]. apply Forall_app. auto.
  - exists m1. auto.
Qed.

(** On the direct path the first finished lot is written on the order
    itself. *)
Lemma produce_all_direct_first (self : wizard) (mo : Z) (f : lot)
    (others : list lot) (w : world) :
  finished_lot_ids self = f :: others ->
  exists more,
    snd (snd (produce_all self (PyList [mo]) w))
    = snd w ++ write_production mo f 1%Q :: more
    /\ Forall (order_call [mo]) more.
Proof.
  intros Hlots. unfold produce_all. rewrite Hlots.
  apply then_first.
  - unfold enumerate. simpl. apply then_first.
    + intros w0. apply call_first. intros _.
      apply emits_bind.
      { apply emits_call. split; [reflexivity |]. simpl.
        now rewrite Z.eqb_refl. }
      intros _. apply emits_bind; [apply emits_read | intros moves].
      apply emits_for_each. intros move _. apply reserve_move_emits.
    + intros _. apply emits_for_each. intros item _.
      apply (produce_unit_emits self (PyList [mo])).
  - intros _. apply emits_bind.
    + apply emits_for_each. intros mo' Hin. apply emits_call.
      split; [reflexivity |]. simpl. simpl in Hin. destruct Hin as [<- | []].
      now rewrite Z.eqb_refl.
    + intros _. apply emits_raise.
Qed.

End CommitRuns.

(** ** Statements about commit *)

(** C1.  With a nonzero warning count, [button_validate] raises the user
    error carrying the warning message and does nothing else: no host
    call is made (so no split, no write on any order) and the host state
    is the one it started from; in particular it returns no action. *)
Theorem validate_rejects_on_warnings (E : Env) (H : Host) (self : wizard)
    (w : world) :
  lot_selection_warning_count (_compute_lot_selection_warning (line_ids self))
  <> 0%Z ->
  button_validate self w
  = (Raise (UserError
              ("Some issues has been detected in your selection: "
                 +++ lot_selection_warning_msg
                       (_compute_lot_selection_warning (line_ids self)))),
     w)
  /\ snd (snd (button_validate self w)) = snd w
  /\ fst (snd (button_validate self w)) = fst w
  /\ forall a w', button_validate self w <> (Ok a, w').
Proof.
  intros Hc.
  assert (Hpos : (0 <? lot_selection_warning_count
                         (_compute_lot_selection_warning (line_ids self)))%Z
                 = true).
  { apply Z.ltb_lt. rewrite compute_fields in *. simpl in *. lia. }
  unfold button_validate. rewrite Hpos. unfold raise.
  repeat split; try reflexivity. intros a w'. discriminate.
Qed.

(** C6 as the specification words it fails: on an order of three units
    with one finished lot chosen and no warning, the split is asked with
    a single amount, one per chosen finished lot and not one per
    finished unit, and a single order is written and confirmed. *)
Lemma split_per_unit_counterexample :
  let self := {| production_id := 10;
                 finished_lot_ids := [Id 1];
                 line_ids := [];
                 include_lots := true |} in
  let log := snd (snd (button_validate (E := Sample.exact_env)
                                       (H := Sample.quiet_host 3)
                                       self (tt, []))) in
  lot_selection_warning_count
    (_compute_lot_selection_warning (E := Sample.exact_env) (line_ids self))
  = 0%Z
  /\ int_of_float
       (product_qty (read_production (Host := Sample.quiet_host 3) tt 10))
     = 3%Z
  /\ log = [split_productions 10 [1%Z];
            write_production 10 (Id 1) 1%Q; action_confirm 10;
            update_reserved_quantity 1 2%Q 2%Q 8 None;
            update_reserved_quantity 2 2%Q 2%Q 8 None;
            button_mark_done 10]
  /\ ~ In (split_productions 10 [1%Z; 1%Z; 1%Z]) log.
Proof.
  split; [reflexivity |]. split; [reflexivity |].
  split; [vm_compute; reflexivity |].
  vm_compute. intuition discriminate.
Qed.

(** C6, amended.  Once the warning check is passed: if the order's
    quantity is greater than 1, the first thing the wizard does is ask
    the host to split the order into one piece of quantity 1 per chosen
    finished lot (however many units the order has), there is no other
    split, and every later call on an order addresses one of the pieces
    the host returned; otherwise no split is requested and every call on
    an order addresses the order itself, beginning with the write of the
    first finished lot on it.  Whether the commit then completes is not
    part of this statement. *)
Theorem commit_splits_or_operates_directly (E : Env) (H : Host)
    (self : wizard) (w : world) :
  lot_selection_warning_count (_compute_lot_selection_warning (line_ids self))
  = 0%Z ->
  let mo := production_id self in
  let qty := product_qty (read_production (fst w) mo) in
  let amounts := repeat 1%Z (List.length (finished_lot_ids self)) in
  let log := snd (snd (button_validate self w)) in
  ((1 < qty)%Q ->
   exists rest,
     log = snd w ++ split_productions mo amounts :: rest
     /\ Forall (order_call
                  (split_result
                     (host_exec (split_productions mo amounts) (fst w))
                     mo amounts)) rest)
  /\ (~ (1 < qty)%Q ->
      (exists calls, log = snd w ++ calls /\ Forall (order_call [mo]) calls)
      /\ forall f others,
           finished_lot_ids self = f :: others ->
           exists more, log = snd w ++ write_production mo f 1%Q :: more).
Proof.
  intros Hc mo qty amounts log. subst log.
  rewrite (validate_without_warnings self Hc). split.
  - intros Hq. apply Qltb_lt in Hq.
    rewrite (commit_split_run self w Hq). cbv zeta.
    rewrite unit_amounts. fold mo amounts.
    destruct (host_raises (split_productions mo amounts) (fst w)).
    + exists []. simpl. auto.
    + destruct (produce_all_emits self
                  (Recordset
                     (split_result
                        (host_exec (split_productions mo amounts) (fst w))
                        mo amounts))
                  (host_exec (split_productions mo amounts) (fst w),
                   snd w ++ [split_productions mo amounts]))
        as [rest [Hlog HP]].
      exists rest. simpl in Hlog, HP. simpl. rewrite Hlog.
      now rewrite <- app_assoc.
  - intros Hq. apply Qltb_false in Hq.
    rewrite (commit_direct_run self w Hq). fold mo. split.
    + exact (produce_all_emits self (PyList [mo]) w).
    + intros f others Hlots.
      destruct (produce_all_direct_first self mo f others w Hlots)
        as [more [Hlog _]].
      now exists more.
Qed.

(** ** Tags *)

(** C10.  A tag created without a color gets the default color, which is
    an integer between 1 and 11 inclusive, as [randint(1, 11)] promises. *)
Theorem default_color_in_range (R : Random) (vals_name : string) (g : rng) :
  randint_in_range R ->
  1 <= color (fst (create vals_name None g)) <= 11
  /\ color (fst (create vals_name None g)) = fst (_get_default_color g).
Proof.
  intros Hr. unfold create, _get_default_color.
  pose proof (Hr 1 11 g ltac:(lia)) as Hrange.
  destruct (randint 1 11 g) as [c g']. simpl in *. auto.
Qed.

(** ** The statements at work on the sample data *)

(** Two rows draw 3 each from lot 5, of which 5 are available: only the
    second row is flagged. *)
Lemma lot_shortfall_is_cumulative_witness :
  let r1 := Sample.line 3 (Some (Id 5)) (Some (Id 1)) 3 in
  let r2 := Sample.line 3 (Some (Id 5)) (Some (Id 2)) 3 in
  flagged_rows (E := Sample.exact_env) [] [r1; r2] = [r2]
  /\ lot_pass (E := Sample.exact_env) [r1; r2] ([], [])
     = ([Id 5], [lot_msg (E := Sample.exact_env) (Id 5) (3 + 2) 3]).
Proof.
  intros r1 r2.
  apply (proj2 (proj2 (proj2 (lot_shortfall_is_cumulative Sample.exact_env)))
               r1 r2 (Id 5)); reflexivity.
Defined.

(** Serial 9 sits in two cells of product 1. *)
Lemma duplicate_serial_warned_once_witness :
  let rows := [Sample.line 1 (Some (Id 9)) (Some (Id 1)) 1;
               Sample.line 1 (Some (Id 9)) (Some (Id 2)) 1;
               Sample.line 1 (Some (Id 4)) (Some (Id 2)) 1] in
  (2 <= occurrences (Id 9) (filter (is_serial_line (E := Sample.exact_env)) rows))%nat
  /\ count_occ record_id_eq_dec
               (fst (serial_pass (E := Sample.exact_env) rows ([], []))) (Id 9)
     = 1%nat.
Proof.
  intros rows.
  assert (Hocc : (2 <= occurrences (Id 9)
                         (filter (is_serial_line (E := Sample.exact_env)) rows))%nat)
    by (vm_compute; lia).
  split; [exact Hocc |].
  exact (proj1 (duplicate_serial_warned_once Sample.exact_env rows (Id 9) Hocc)).
Defined.

(** The cell of finished lot 2 is left empty. *)
Lemma unfilled_cell_always_flagged_witness :
  let r := Sample.line 1 None (Some (Id 2)) 1 in
  let rows := [Sample.line 1 (Some (Id 9)) (Some (Id 1)) 1; r] in
  In (Id 2)
     (lot_selection_warning_ids
        (_compute_lot_selection_warning (E := Sample.exact_env) rows)).
Proof.
  intros r rows.
  apply (proj1 (unfilled_cell_always_flagged Sample.exact_env rows r (Id 2)
                  ltac:(simpl; auto) eq_refl eq_refl)).
Defined.

(** An order of two units that consumes four serials of product 1. *)
Lemma serial_component_unit_rows_witness :
  move_components (E := Sample.exact_env) true (Sample.order 2)
                  (Sample.move 1 1 4)
  = Ok [(1, 1, 1%Q); (1, 2, 1%Q)].
Proof.
  exact (proj1 (serial_component_unit_rows Sample.exact_env true
                  (Sample.order 2) [] [Sample.move 2 3 (6 / 2)%Q]
                  (Sample.move 1 1 4) (4 # 2)%Q
                  eq_refl eq_refl eq_refl eq_refl)).
Defined.

Lemma placeholder_groups_labelled_witness :
  _get_matrix_lines (E := Sample.exact_env) true (Sample.order 2) []
  = Ok (flat_map
          (fun i => group_rows (E := Sample.exact_env)
                               [(1, 1, 1%Q); (1, 2, 1%Q); (3, 0, (6 # 4)%Q)]
                               (None, i))
          [1; 2]).
Proof.
  exact (proj1 (placeholder_groups_labelled Sample.exact_env true
                  (Sample.order 2)
                  [(1, 1, 1%Q); (1, 2, 1%Q); (3, 0, (6 # 4)%Q)] 2
                  ltac:(lia) ltac:(reflexivity) eq_refl)).
Defined.

(** A wizard with an unfilled cell cannot be validated. *)
Lemma validate_rejects_on_warnings_witness :
  let self := {| production_id := 10;
                 finished_lot_ids := [Id 1; Id 2];
                 line_ids := [Sample.line 1 None (Some (Id 2)) 1];
                 include_lots := true |} in
  snd (snd (button_validate (E := Sample.exact_env) (H := Sample.quiet_host 2)
                            self (tt, [])))
  = [].
Proof.
  intros self.
  apply (proj1 (proj2 (validate_rejects_on_warnings
                         Sample.exact_env (Sample.quiet_host 2) self (tt, [])
                         ltac:(vm_compute; discriminate)))).
Defined.

(** A wizard without warnings on an order of two units. *)
Lemma commit_splits_or_operates_directly_witness :
  let self := {| production_id := 10;
                 finished_lot_ids := [Id 1; Id 2];
                 line_ids := [];
                 include_lots := true |} in
  exists rest,
    snd (snd (button_validate (E := Sample.exact_env) (H := Sample.quiet_host 2)
                              self (tt, [])))
    = split_productions 10 [1; 1] :: rest.
Proof.
  intros self.
  destruct (proj1 (commit_splits_or_operates_directly
                     Sample.exact_env (Sample.quiet_host 2) self (tt, [])
                     eq_refl) ltac:(reflexivity))
    as [rest [Hlog _]].
  exists rest. exact Hlog.
Defined.

Lemma lcg_in_range : randint_in_range Sample.lcg.
Proof.
  intros a b g Hab. simpl.
  pose proof (Z.mod_pos_bound g (b - a + 1)). lia.
Qed.

Lemma default_color_in_range_witness :
  1 <= color (fst (create (R := Sample.lcg) "urgent" None 42%Z)) <= 11.
Proof.
  exact (proj1 (default_color_in_range Sample.lcg "urgent" 42%Z lcg_in_range)).
Defined.

(** * Further properties of the code *)

(** ** The generator: size, content, errors *)

Section GeneratorMore.
Context {E : Env}.

Lemma group_rows_length (tracked : list component_tuple)
    (head : option lot * Z) :
  List.length (group_rows tracked head) = List.length tracked.
Proof. unfold group_rows. apply length_map. Qed.

Lemma groups_length (tracked : list component_tuple)
    (heads : list (option lot * Z)) :
  List.length (flat_map (group_rows tracked) heads)
  = (List.length heads * List.length tracked)%nat.
Proof.
  induction heads as [| h heads IH]; simpl; [reflexivity |].
  now rewrite length_app, group_rows_length, IH.
Qed.

Lemma move_components_tracked (inc : bool) (p : mrp_production)
    (m : stock_move) (cs : list component_tuple) :
  move_components inc p m = Ok cs ->
  Forall (fun ct => tracking (fst (fst ct)) = by_serial
                    \/ (tracking (fst (fst ct)) = by_lot /\ inc = true)) cs.
Proof.
  unfold move_components.
  destruct (float_is_zero _ _); [intros [= <-]; constructor |].
  destruct (qty_per_finished_unit p m) as [q | e]; simpl; [| discriminate].
  destruct (tracking (move_product_id m)) eqn:Ht.
  - intros [= <-]. constructor.
  - destruct inc; intros [= <-]; [| constructor].
    apply Forall_cons; [| constructor]. simpl. auto.
  - intros [= <-]. apply Forall_forall. intros ct Hin.
    apply in_map_iff in Hin. destruct Hin as [i [<- _]]. simpl. auto.
Qed.

Lemma collect_components_tracked (inc : bool) (p : mrp_production)
    (moves : list stock_move) (acc tracked : list component_tuple) :
  Forall (fun ct => tracking (fst (fst ct)) = by_serial
                    \/ (tracking (fst (fst ct)) = by_lot /\ inc = true)) acc ->
  collect_components inc p moves acc = Ok tracked ->
  Forall (fun ct => tracking (fst (fst ct)) = by_serial
                    \/ (tracking (fst (fst ct)) = by_lot /\ inc = true)) tracked.
Proof.
  revert acc. induction moves as [| m moves IH]; intros acc Hacc; simpl.
  - now intros [= <-].
  - destruct (move_components inc p m) as [cs |] eqn:Hm; simpl; [| discriminate].
    apply IH. apply Forall_app. split; [assumption |].
    exact (move_components_tracked _ _ _ _ Hm).
Qed.

(** A move that contributes tuples was skipped or has a nonzero
    divisor. *)
Lemma move_components_ok_divisor (inc : bool) (p : mrp_production)
    (m : stock_move) (cs : list component_tuple) :
  move_components inc p m = Ok cs ->
  skipped m = true \/ ~ (divisor p m == 0)%Q.
Proof.
  unfold move_components, skipped, qty_per_finished_unit, divisor, py_div.
  destruct (float_is_zero _ _); [auto |].
  intros Hok. right. intro Hz. apply Qeq_bool_iff in Hz.
  destruct (bom_line_id m); rewrite Hz in Hok; discriminate.
Qed.

Lemma collect_components_ok_divisors (inc : bool) (p : mrp_production)
    (moves : list stock_move) (acc tracked : list component_tuple) :
  collect_components inc p moves acc = Ok tracked ->
  Forall (fun m => skipped m = true \/ ~ (divisor p m == 0)%Q) moves.
Proof.
  revert acc. induction moves as [| m moves IH]; intros acc; simpl.
  - constructor.
  - destruct (move_components inc p m) as [cs | e] eqn:Hm; simpl;
      [| discriminate].
    intros Hrest. constructor.
    + exact (move_components_ok_divisor _ _ _ _ Hm).
    + exact (IH _ Hrest).
Qed.

Lemma collect_components_skip (inc : bool) (p : mrp_production)
    (moves kept : list stock_move) (acc : list component_tuple) :
  collect_components inc (with_moves kept p)
                     (filter (fun m => negb (skipped m)) moves) acc
  = collect_components inc p moves acc.
Proof.
  revert acc. induction moves as [| m moves IH]; intros acc; simpl; [reflexivity |].
  destruct (skipped m) eqn:Hs; simpl.
  - unfold move_components. unfold skipped in Hs. rewrite Hs. simpl.
    now rewrite app_nil_r.
  - assert (Hm : move_components inc (with_moves kept p) m
                 = move_components inc p m) by reflexivity.
    rewrite Hm. destruct (move_components inc p m); simpl; [apply IH | reflexivity].
Qed.

Lemma remove_lot_fresh (f : lot) (lots : list lot) :
  ~ In f lots -> remove_lot f lots = lots.
Proof.
  unfold remove_lot. induction lots as [| x lots IH]; simpl; [reflexivity |].
  intros Hnin. rewrite record_id_eqb_neq by (intro; subst; tauto).
  simpl. f_equal. apply IH. tauto.
Qed.

Lemma py_range_empty (a : Z) : py_range a (a + Z.of_nat 0) = [].
Proof. unfold py_range. now replace (a + Z.of_nat 0 - a) with 0 by lia. Qed.

(** Distinct chosen lots head the first groups, in order; the groups
    that remain are numbered from [num + 1]. *)
Lemma group_heads_chosen (n : nat) (lots : list lot) (num : Z) :
  NoDup lots ->
  group_heads n lots num
  = map (fun l => (Some l, num)) (firstn n lots)
      ++ map (fun i => (None, i))
             (py_range (num + 1)
                       (num + 1 + Z.of_nat (n - List.length lots))).
Proof.
  revert lots. induction n as [| n IH]; intros lots Hnd.
  - simpl. now rewrite py_range_empty.
  - destruct lots as [| f rest].
    + rewrite group_heads_placeholders. reflexivity.
    + inversion Hnd as [| ? ? Hfresh Hrest]; subst.
      cbn [group_heads firstn map app List.length].
      assert (Hrm : remove_lot f (f :: rest) = rest).
      { unfold remove_lot. simpl. rewrite record_id_eqb_refl. simpl.
        now apply remove_lot_fresh. }
      rewrite Hrm, (IH rest Hrest). reflexivity.
Qed.

Lemma get_matrix_lines_chosen (inc : bool) (p : mrp_production)
    (lots : list lot) (tracked : list component_tuple) :
  NoDup lots ->
  collect_components inc p (move_raw_ids p) [] = Ok tracked ->
  _get_matrix_lines inc p lots
  = Ok (flat_map (group_rows tracked)
          (map (fun l => (Some l, 0%Z))
               (firstn (Z.to_nat (int_of_float (product_qty p))) lots)
             ++ map (fun i => (None, i))
                    (py_range 1
                       (1 + Z.of_nat (Z.to_nat (int_of_float (product_qty p))
                                      - List.length lots))))).
Proof.
  intros Hnd Hcc. rewrite get_matrix_lines_groups, Hcc. simpl.
  now rewrite (group_heads_chosen _ lots 0 Hnd).
Qed.

End GeneratorMore.

(** X1.  The generator returns as many rows as groups times tracked
    component tuples: the integer part of the order's quantity, times
    the tuples collected from the raw moves, whatever lots are chosen. *)
Theorem generator_row_count (E : Env) (inc : bool) (p : mrp_production)
    (lots : list lot) (lines : list line_vals) :
  _get_matrix_lines inc p lots = Ok lines ->
  exists tracked,
    collect_components inc p (move_raw_ids p) [] = Ok tracked
    /\ List.length lines
       = (Z.to_nat (int_of_float (product_qty p)) * List.length tracked)%nat.
Proof.
  rewrite get_matrix_lines_groups. unfold rmap, rbind.
  destruct (collect_components inc p (move_raw_ids p) []) as [tracked |];
    [| discriminate].
  intros [= <-]. exists tracked. split; [reflexivity |].
  now rewrite groups_length, group_heads_length.
Qed.

(** X2.  Every row the generator returns belongs to a serial-tracked or
    a lot-tracked component (components that are not tracked never get a
    row), and with lot-inclusion off every row is serial-tracked. *)
Theorem generator_only_tracked_rows (E : Env) (inc : bool)
    (p : mrp_production) (lots : list lot) (lines : list line_vals) :
  _get_matrix_lines inc p lots = Ok lines ->
  Forall (fun v => vals_by_serial v = true
                   \/ (vals_by_lot v = true /\ inc = true)) lines.
Proof.
  rewrite get_matrix_lines_groups. unfold rmap, rbind.
  destruct (collect_components inc p (move_raw_ids p) []) as [tracked |] eqn:Hcc;
    [| discriminate].
  intros [= <-].
  pose proof (collect_components_tracked inc p (move_raw_ids p) [] tracked
                (Forall_nil _) Hcc) as Ht.
  rewrite Forall_forall in Ht. apply Forall_forall. intros v Hin.
  apply in_flat_map in Hin. destruct Hin as [head [_ Hin]].
  unfold group_rows in Hin. apply in_map_iff in Hin.
  destruct Hin as [ct [<- Hct]].
  unfold vals_by_serial, vals_by_lot. rewrite prepare_component.
  destruct (Ht ct Hct) as [Hs | [Hl Hi]].
  - left. now rewrite Hs.
  - right. now rewrite Hl.
Qed.

(** X3.  The generator returns rows only if every raw move that is not
    skipped as zero has a nonzero divisor (the quantity of its bill of
    materials, or of the order when the move has no BoM line): as soon
    as one such move has a zero divisor, the generator raises and
    returns no row, whatever the other moves and the chosen lots. *)
Theorem generator_fails_on_zero_divisor (E : Env) (inc : bool)
    (p : mrp_production) (lots : list lot) (m : stock_move) :
  In m (move_raw_ids p) ->
  skipped m = false ->
  (divisor p m == 0)%Q ->
  exists e, _get_matrix_lines inc p lots = Raise e.
Proof.
  intros Hin Hs Hz. rewrite get_matrix_lines_groups.
  destruct (collect_components inc p (move_raw_ids p) []) as [t | e] eqn:Hcc;
    simpl; [| eauto].
  exfalso.
  pose proof (collect_components_ok_divisors _ _ _ _ _ Hcc) as Hall.
  rewrite Forall_forall in Hall. destruct (Hall m Hin) as [Hk | Hn].
  - congruence.
  - exact (Hn Hz).
Qed.

(** X4.  Raw moves skipped as zero have no effect at all: the generator
    gives the same result, rows or exception, on the order without
    them, even when their bill of materials has quantity zero. *)
Theorem generator_ignores_skipped_moves (E : Env) (inc : bool)
    (p : mrp_production) (lots : list lot) :
  _get_matrix_lines inc
    (with_moves (filter (fun m => negb (skipped m)) (move_raw_ids p)) p) lots
  = _get_matrix_lines inc p lots.
Proof.
  rewrite !get_matrix_lines_groups. simpl.
  now rewrite collect_components_skip.
Qed.

(** X5.  When the chosen finished lots are distinct, the groups are
    those of the chosen lots, in order and at most as many as the order's
    quantity allows (further lots are ignored), followed by placeholder
    groups numbered from 1; the rows of a chosen lot carry its name and
    its database id, a [NewId] being replaced by the id it originates
    from. *)
Theorem generator_chosen_lots_first (E : Env) (inc : bool)
    (p : mrp_production) (lots : list lot) (tracked : list component_tuple) :
  NoDup lots ->
  collect_components inc p (move_raw_ids p) [] = Ok tracked ->
  let n := Z.to_nat (int_of_float (product_qty p)) in
  _get_matrix_lines inc p lots
  = Ok (flat_map (group_rows tracked)
          (map (fun l => (Some l, 0%Z)) (firstn n lots)
             ++ map (fun i => (None, i))
                    (py_range 1 (1 + Z.of_nat (n - List.length lots)))))
  /\ forall l ct,
       let v := _prepare_matrix_line ct (Some l) (Some 0%Z) in
       v_finished_lot_name v = Some (lot_name l)
       /\ v_finished_lot_id v
          = match l with Id i => Some i | NewId origin => origin end.
Proof.
  intros Hnd Hcc n. split.
  - exact (get_matrix_lines_chosen inc p lots tracked Hnd Hcc).
  - intros l [[c i] q]. simpl. now destruct l.
Qed.

(** ** The aggregator: what is reported, and when nothing is *)

Section AggregatorMore.
Context {E : Env}.

Lemma dict_In_get {V : Type} (d : dict V) (k : lot) (v : V) :
  NoDup (map fst d) -> In (k, v) d -> dict_get d k = Some v.
Proof.
  induction d as [| [k' v'] d IH]; simpl; [tauto |].
  intros Hnd [Heq | Hin].
  - injection Heq as -> ->. now rewrite record_id_eqb_refl.
  - apply NoDup_cons_iff in Hnd. destruct Hnd as [Hfresh Hnd].
    destruct (record_id_eqb_spec k k') as [-> | Hne]; [| auto].
    exfalso. apply Hfresh. apply in_map_iff. now exists (k', v).
Qed.

Lemma serial_pass_reported (line_ids : list matrix_line) (l : lot) :
  In l (fst (serial_pass line_ids ([], [])))
  <-> (2 <= occurrences l (filter is_serial_line line_ids))%nat.
Proof.
  split.
  - unfold serial_pass. rewrite report_serial_fold. simpl.
    set (counter := fold_left count_serial (filter is_serial_line line_ids) []).
    intros Hin. apply in_map_iff in Hin. destruct Hin as [[k v] [Hk Hin]].
    simpl in Hk. subst k. apply filter_In in Hin. destruct Hin as [Hin Hhot].
    simpl in Hhot. apply Z.ltb_lt in Hhot.
    assert (Hnd : NoDup (map fst counter))
      by (apply serial_counter_NoDup; constructor).
    pose proof (dict_In_get counter l v Hnd Hin) as Hget.
    pose proof (serial_counter_item (filter is_serial_line line_ids) [] l) as Hitem.
    fold counter in Hitem. unfold dict_item in Hitem at 1. rewrite Hget in Hitem.
    unfold dict_item in Hitem. simpl in Hitem. lia.
  - intros Hocc. pose proof (serial_pass_count line_ids l Hocc) as Hc.
    apply (count_occ_In record_id_eq_dec). lia.
Qed.

Lemma serial_pass_NoDup (line_ids : list matrix_line) :
  NoDup (fst (serial_pass line_ids ([], []))).
Proof.
  unfold serial_pass. rewrite report_serial_fold. simpl.
  apply keys_filter_NoDup, serial_counter_NoDup. constructor.
Qed.

Lemma flagged_rows_have_lot (rows earlier : list matrix_line) (r : matrix_line) :
  In r (flagged_rows earlier rows) -> exists k, component_lot_id r = Some k.
Proof.
  revert earlier. induction rows as [| x rows IH]; intros earlier; simpl;
    [tauto |].
  intros Hin. apply in_app_or in Hin. destruct Hin as [Hin | Hin].
  - destruct (short_at earlier x) eqn:Hs; [| contradiction].
    destruct Hin as [<- | []]. unfold short_at in Hs.
    destruct (component_lot_id x); [eauto | discriminate].
  - eauto.
Qed.

Lemma flagged_cells_length (rows earlier : list matrix_line) :
  List.length (flat_map cell (flagged_rows earlier rows))
  = List.length (flagged_rows earlier rows).
Proof.
  revert earlier. induction rows as [| x rows IH]; intros earlier; simpl;
    [reflexivity |].
  rewrite flat_map_app, !length_app, IH. f_equal.
  destruct (short_at earlier x) eqn:Hs; [| reflexivity].
  unfold short_at in Hs. simpl. unfold cell.
  destruct (component_lot_id x); [reflexivity | discriminate].
Qed.

Lemma not_filled_pass_lots (line_ids : list matrix_line) :
  fst (not_filled_pass line_ids ([], []))
  = mapped_finished_lot_id (filter not_filled line_ids).
Proof.
  unfold not_filled_pass. now destruct (filter not_filled line_ids).
Qed.

Lemma mapped_empty_iff (rows : list matrix_line) :
  mapped_finished_lot_id rows = []
  <-> Forall (fun r => finished_lot_id r = None) rows.
Proof.
  split.
  - intros Hnil. apply Forall_forall. intros r Hin.
    destruct (finished_lot_id r) as [f |] eqn:Hf; [| reflexivity].
    assert (Hm : In f (mapped_finished_lot_id rows))
      by (apply In_mapped_finished_lot_id; eauto).
    rewrite Hnil in Hm. contradiction.
  - intros Hall. destruct (mapped_finished_lot_id rows) as [| f rest] eqn:Hm;
      [reflexivity |].
    assert (Hin : In f (mapped_finished_lot_id rows)) by (rewrite Hm; now left).
    apply In_mapped_finished_lot_id in Hin. destruct Hin as [r [Hr Hf]].
    rewrite Forall_forall in Hall. rewrite (Hall r Hr) in Hf. discriminate.
Qed.

(** Rows whose cells are all empty raise no serial and no lot warning. *)
Lemma serial_pass_empty_cells (line_ids : list matrix_line) (w : warnings) :
  Forall (fun r => component_lot_id r = None) line_ids ->
  serial_pass line_ids w = w.
Proof.
  intros Hall. unfold serial_pass.
  assert (Hc : forall rows d,
             Forall (fun r => component_lot_id r = None) rows ->
             fold_left count_serial rows d = d).
  { induction rows as [| r rows IH]; intros d Hrows; simpl; [reflexivity |].
    inversion Hrows as [| ? ? Hr Hrest]; subst.
    unfold count_serial at 2. rewrite Hr. now apply IH. }
  rewrite Hc; [reflexivity |].
  apply Forall_forall. intros r Hin. apply filter_In in Hin.
  rewrite Forall_forall in Hall. apply Hall. tauto.
Qed.

Lemma lot_pass_empty_cells (line_ids : list matrix_line) (w : warnings) :
  Forall (fun r => component_lot_id r = None) line_ids ->
  lot_pass line_ids w = w.
Proof.
  intros Hall. unfold lot_pass.
  assert (Hc : forall rows st,
             Forall (fun r => component_lot_id r = None) rows ->
             fold_left check_lot rows st = st).
  { induction rows as [| r rows IH]; intros st Hrows; simpl; [reflexivity |].
    inversion Hrows as [| ? ? Hr Hrest]; subst.
    unfold check_lot at 2. destruct st as [d w0]. rewrite Hr. now apply IH. }
  rewrite Hc; [reflexivity |].
  apply Forall_forall. intros r Hin. apply filter_In in Hin.
  rewrite Forall_forall in Hall. apply Hall. tauto.
Qed.

Lemma mapped_filter_not_filled (line_ids : list matrix_line) :
  Forall (fun r => component_lot_id r = None) line_ids ->
  mapped_finished_lot_id (filter not_filled line_ids)
  = mapped_finished_lot_id line_ids.
Proof.
  intros Hall. unfold mapped_finished_lot_id. f_equal.
  induction line_ids as [| r rows IH]; simpl; [reflexivity |].
  inversion Hall as [| ? ? Hr Hrest]; subst.
  unfold not_filled at 1. rewrite Hr.
  destruct (finished_lot_id r) as [f |] eqn:Hf; simpl.
  - rewrite Hf. simpl. f_equal. now apply IH.
  - now apply IH.
Qed.

Lemma collect_warnings_empty_cells (line_ids : list matrix_line) :
  Forall (fun r => component_lot_id r = None) line_ids ->
  fst (collect_warnings line_ids) = mapped_finished_lot_id line_ids.
Proof.
  intros Hall. unfold collect_warnings.
  rewrite serial_pass_empty_cells, lot_pass_empty_cells by assumption.
  now rewrite not_filled_pass_lots, mapped_filter_not_filled.
Qed.

End AggregatorMore.

(** X6.  The serial pass reports a serial exactly when it sits in at
    least two cells of serial-tracked rows: a serial used once is never
    reported, an empty cell never counts, and no serial is reported
    twice. *)
Theorem serial_reported_iff_repeated (E : Env)
    (line_ids : list matrix_line) (l : lot) :
  NoDup (fst (serial_pass line_ids ([], [])))
  /\ (In l (fst (serial_pass line_ids ([], [])))
      <-> (2 <= occurrences l (filter is_serial_line line_ids))%nat).
Proof. split; [apply serial_pass_NoDup | apply serial_pass_reported]. Qed.

(** X7.  The warning count is the number of repeated serials, plus the
    number of flagged lot rows (a lot flagged on several rows counts
    once per row), plus the number of distinct finished lots that have
    an unfilled cell. *)
Theorem warning_count_formula (E : Env) (line_ids : list matrix_line) :
  lot_selection_warning_count (_compute_lot_selection_warning line_ids)
  = Z.of_nat
      (List.length (fst (serial_pass line_ids ([], [])))
       + List.length (flagged_rows [] (filter is_lot_line line_ids))
       + List.length (mapped_finished_lot_id (filter not_filled line_ids)))
  /\ NoDup (fst (serial_pass line_ids ([], []))).
Proof.
  split; [| apply serial_pass_NoDup].
  rewrite compute_fields. simpl. rewrite collect_warnings_parts. simpl.
  rewrite !length_app, flagged_cells_length, not_filled_pass_lots.
  f_equal. lia.
Qed.

(** X8.  Validation is allowed (the warning count is zero) exactly when
    no serial sits in two cells of serial-tracked rows, no lot-tracked
    row is short of its lot, and no row of a chosen finished lot has an
    empty cell. *)
Theorem validation_allowed_iff (E : Env) (line_ids : list matrix_line) :
  lot_selection_warning_count (_compute_lot_selection_warning line_ids) = 0%Z
  <-> (forall l, (occurrences l (filter is_serial_line line_ids) <= 1)%nat)
      /\ flagged_rows [] (filter is_lot_line line_ids) = []
      /\ Forall (fun r => not_filled r = false) line_ids.
Proof.
  rewrite compute_fields. simpl. rewrite collect_warnings_parts. simpl.
  rewrite !length_app, flagged_cells_length, not_filled_pass_lots.
  split.
  - intros Hz.
    assert (Hs : fst (serial_pass line_ids ([], [])) = [])
      by (apply length_zero_iff_nil; lia).
    assert (Hf : flagged_rows [] (filter is_lot_line line_ids) = [])
      by (apply length_zero_iff_nil; lia).
    assert (Hn : mapped_finished_lot_id (filter not_filled line_ids) = [])
      by (apply length_zero_iff_nil; lia).
    split; [| split; [assumption |]].
    + intros l.
      destruct (le_lt_dec (occurrences l (filter is_serial_line line_ids)) 1)
        as [Hle | Hgt]; [assumption |].
      apply serial_pass_reported in Hgt. rewrite Hs in Hgt. contradiction.
    + apply Forall_forall. intros r Hin.
      destruct (not_filled r) eqn:Hnf; [| reflexivity].
      apply not_filled_iff in Hnf. destruct Hnf as [[f Hf'] Hc].
      assert (Hm : In f (mapped_finished_lot_id (filter not_filled line_ids))).
      { apply In_mapped_finished_lot_id. exists r. split; [| assumption].
        apply filter_In. split; [assumption |].
        apply not_filled_iff. eauto. }
      rewrite Hn in Hm. contradiction.
  - intros [Hs [Hf Hn]].
    assert (Hs' : fst (serial_pass line_ids ([], [])) = []).
    { destruct (fst (serial_pass line_ids ([], []))) as [| l rest] eqn:Hd;
        [reflexivity |].
      assert (Hin : In l (fst (serial_pass line_ids ([], []))))
        by (rewrite Hd; now left).
      apply serial_pass_reported in Hin. specialize (Hs l). lia. }
    assert (Hn' : filter not_filled line_ids = []).
    { destruct (filter not_filled line_ids) as [| r rest] eqn:Hd; [reflexivity |].
      assert (Hin : In r (filter not_filled line_ids)) by (rewrite Hd; now left).
      apply filter_In in Hin. rewrite Forall_forall in Hn.
      destruct Hin as [Hin Hnf]. rewrite (Hn r Hin) in Hnf. discriminate. }
    rewrite Hs', Hf, Hn'. reflexivity.
Qed.

(** ** Lots under exact arithmetic *)

Section ExactLots.
Context {E : Env}.

Lemma requested_nonneg (k : lot) (rows : list matrix_line) :
  (forall r, In r rows -> component_lot_id r = Some k -> (0 <= lot_qty r)%Q) ->
  (0 <= requested k rows)%Q.
Proof.
  induction rows as [| r rows IH]; intros Hq; simpl; [lra |].
  assert (Hrest : (0 <= requested k rows)%Q)
    by (apply IH; intros; apply Hq; [now right | assumption]).
  destruct (assigned k r) eqn:Ha; [| assumption].
  apply assigned_iff in Ha.
  pose proof (Hq r (or_introl eq_refl) Ha). lra.
Qed.

Lemma exact_walk_head (k : lot) (earlier rows : list matrix_line)
    (r : matrix_line) :
  exact_walk k earlier (r :: rows) ->
  component_lot_id r = Some k ->
  (float_sub (available r) (drawn_before k earlier)
   == available r - drawn_before k earlier)%Q
  /\ (float_add (drawn_before k earlier) (lot_qty r)
      == drawn_before k earlier + lot_qty r)%Q.
Proof.
  intros Hw Hk. specialize (Hw [] r rows eq_refl Hk).
  now rewrite app_nil_r in Hw.
Qed.

Lemma exact_walk_tail (k : lot) (earlier rows : list matrix_line)
    (r : matrix_line) :
  exact_walk k earlier (r :: rows) -> exact_walk k (earlier ++ [r]) rows.
Proof.
  intros Hw pre r' post Hrows Hk.
  rewrite <- app_assoc. simpl.
  apply (Hw (r :: pre) r' post); [now rewrite Hrows | assumption].
Qed.

Lemma flagged_iff_overdrawn_from (k : lot) (A : Q)
    (rows earlier : list matrix_line) :
  exact_walk k earlier rows ->
  (forall r, In r rows -> component_lot_id r = Some k ->
             (available r == A)%Q /\ (0 <= lot_qty r)%Q) ->
  (drawn_before k earlier <= A)%Q ->
  ((exists r, In r (flagged_rows earlier rows) /\ component_lot_id r = Some k)
   <-> (A < drawn_before k earlier + requested k rows)%Q).
Proof.
  revert earlier. induction rows as [| r rows IH]; intros earlier Hw Hrows Hle.
  - simpl. split; [intros [r [[] _]] | lra].
  - assert (Hrest : forall r0, In r0 rows -> component_lot_id r0 = Some k ->
                               (available r0 == A)%Q /\ (0 <= lot_qty r0)%Q)
      by (intros; apply Hrows; [now right | assumption]).
    pose proof (requested_nonneg k rows
                  (fun r0 Hin Hk => proj2 (Hrest r0 Hin Hk))) as Hnn.
    pose proof (exact_walk_tail k earlier rows r Hw) as Hw'.
    simpl flagged_rows. simpl requested.
    destruct (assigned k r) eqn:Ha.
    + apply assigned_iff in Ha.
      destruct (Hrows r (or_introl eq_refl) Ha) as [Hav Hq].
      destruct (exact_walk_head k earlier rows r Hw Ha) as [Hsub Hadd].
      assert (Hsn : drawn_before k (earlier ++ [r])
                    = float_add (drawn_before k earlier) (lot_qty r)).
      { rewrite drawn_before_snoc.
        now rewrite (proj2 (assigned_iff k r) Ha). }
      destruct (short_at earlier r) eqn:Hs.
      * apply (short_at_iff earlier r k Ha) in Hs.
        split; [intros _; lra |].
        intros _. exists r. split; [now left | assumption].
      * assert (Hns : ~ (float_sub (available r) (drawn_before k earlier)
                         < lot_qty r)%Q).
        { intro Hc. apply (short_at_iff earlier r k Ha) in Hc. congruence. }
        simpl app.
        rewrite (IH (earlier ++ [r]) Hw' Hrest); rewrite Hsn; [| lra].
        split; intros; lra.
    + assert (Hsn : drawn_before k (earlier ++ [r]) = drawn_before k earlier)
        by (rewrite drawn_before_snoc; now rewrite Ha).
      assert (Hle' : (drawn_before k (earlier ++ [r]) <= A)%Q)
        by (rewrite Hsn; assumption).
      pose proof (IH (earlier ++ [r]) Hw' Hrest Hle') as IH'.
      rewrite Hsn in IH'. rewrite <- IH'.
      split; intros [r0 [Hin Hk]]; exists r0; (split; [| assumption]).
      * apply in_app_or in Hin. destruct Hin as [Hin | Hin]; [| assumption].
        destruct (short_at earlier r); [| contradiction].
        destruct Hin as [<- | []].
        apply assigned_iff in Hk. congruence.
      * apply in_or_app. now right.
Qed.

Lemma lot_pass_reports (line_ids : list matrix_line) (k : lot) :
  In k (fst (lot_pass line_ids ([], [])))
  <-> exists r, In r (flagged_rows [] (filter is_lot_line line_ids))
                /\ component_lot_id r = Some k.
Proof.
  rewrite lot_pass_flagged. simpl. rewrite in_flat_map.
  split; intros [r [Hin Hk]]; exists r; (split; [assumption |]).
  - unfold cell in Hk. destruct (component_lot_id r); simpl in Hk;
      [| contradiction].
    destruct Hk as [-> | []]. reflexivity.
  - unfold cell. rewrite Hk. now left.
Qed.

End ExactLots.

(** X9.  Take a lot [k] whose availability [A] is not negative, rows
    that ask of it quantities that are not negative, and suppose the
    differences and sums the lot pass computes for [k] are exact.  Then
    the aggregator's lot pass reports [k] exactly when the total the
    lot-tracked rows ask of [k] exceeds [A]. *)
Theorem lot_flagged_iff_overdrawn (E : Env) (line_ids : list matrix_line)
    (k : lot) (A : Q) :
  exact_walk k [] (filter is_lot_line line_ids) ->
  (0 <= A)%Q ->
  (forall r, In r (filter is_lot_line line_ids) ->
             component_lot_id r = Some k ->
             (available r == A)%Q /\ (0 <= lot_qty r)%Q) ->
  (In k (fst (lot_pass line_ids ([], [])))
   <-> (A < requested k (filter is_lot_line line_ids))%Q).
Proof.
  intros Hw HA Hrows. rewrite lot_pass_reports.
  rewrite (flagged_iff_overdrawn_from k A _ [] Hw Hrows).
  - unfold drawn_before. simpl. split; intros; lra.
  - unfold drawn_before. simpl. assumption.
Qed.

(** ** Regeneration and opening *)

Section RegenerationFacts.
Context {E : Env}.

Lemma new_lines_empty_cells (vals : list line_vals) :
  Forall (fun r => component_lot_id r = None) (map new_line vals).
Proof. apply Forall_forall. intros r Hin. apply in_map_iff in Hin.
       destruct Hin as [v [<- _]]. reflexivity. Qed.

Lemma onchange_lines (browse : Z -> mrp_production) (rec rec' : wizard) :
  _onchange_finished_lot_ids browse rec = Ok rec' ->
  exists vals,
    _get_matrix_lines (include_lots rec) (browse (production_id rec))
                      (finished_lot_ids rec) = Ok vals
    /\ rec' = with_line_ids (map new_line vals) rec.
Proof.
  unfold _onchange_finished_lot_ids, rbind.
  destruct (_get_matrix_lines _ _ _) as [vals |]; [| discriminate].
  intros [= <-]. exists vals. split; reflexivity.
Qed.

Lemma placeholder_rows_unbound (tracked : list component_tuple) (n : nat)
    (num : Z) :
  Forall (fun v => v_finished_lot_id v = None)
         (flat_map (group_rows tracked) (group_heads n [] num)).
Proof.
  rewrite group_heads_placeholders. apply Forall_forall. intros v Hin.
  apply in_flat_map in Hin. destruct Hin as [head [Hh Hin]].
  apply in_map_iff in Hh. destruct Hh as [i [<- _]].
  unfold group_rows in Hin. apply in_map_iff in Hin.
  destruct Hin as [ct [<- _]]. apply prepare_placeholder.
Qed.

Lemma regenerated_warnings (vals : list line_vals) :
  lot_selection_warning_ids (_compute_lot_selection_warning (map new_line vals))
  = mapped_finished_lot_id (map new_line vals)
  /\ (lot_selection_warning_count
        (_compute_lot_selection_warning (map new_line vals)) = 0%Z
      <-> Forall (fun r => finished_lot_id r = None) (map new_line vals)).
Proof.
  rewrite compute_fields. simpl.
  rewrite (collect_warnings_empty_cells _ (new_lines_empty_cells vals)).
  split; [reflexivity |].
  rewrite <- mapped_empty_iff, <- length_zero_iff_nil. lia.
Qed.

Lemma count_zero_msg_empty (line_ids : list matrix_line) :
  lot_selection_warning_count (_compute_lot_selection_warning line_ids) = 0%Z ->
  lot_selection_warning_msg (_compute_lot_selection_warning line_ids) = "".
Proof.
  rewrite compute_fields. simpl. intros Hz.
  apply (join_empty_iff _ _ (collect_warnings_msgs_nonempty line_ids)).
  apply collect_warnings_balanced, length_zero_iff_nil. lia.
Qed.

End RegenerationFacts.

(** X10.  Regeneration keeps the order, the chosen finished lots and
    the lot-inclusion box, discards whatever the cells held (the result
    does not depend on the former lines) and leaves every cell empty; the
    warnings of the regenerated wizard are therefore exactly the distinct
    finished lots bound to its rows, and validation is blocked exactly
    when some row is bound to a finished lot. *)
Theorem regeneration_resets_cells (E : Env) (browse : Z -> mrp_production)
    (rec rec' : wizard) :
  _onchange_finished_lot_ids browse rec = Ok rec' ->
  (production_id rec' = production_id rec
   /\ finished_lot_ids rec' = finished_lot_ids rec
   /\ include_lots rec' = include_lots rec)
  /\ (forall lines,
         _onchange_finished_lot_ids browse (with_line_ids lines rec) = Ok rec')
  /\ Forall (fun r => component_lot_id r = None) (line_ids rec')
  /\ lot_selection_warning_ids (_compute_lot_selection_warning (line_ids rec'))
     = mapped_finished_lot_id (line_ids rec')
  /\ (lot_selection_warning_count (_compute_lot_selection_warning (line_ids rec'))
      = 0%Z
      <-> Forall (fun r => finished_lot_id r = None) (line_ids rec')).
Proof.
  intros Hon. pose proof Hon as Hon'.
  apply onchange_lines in Hon. destruct Hon as [vals [Hgen ->]].
  pose proof (new_lines_empty_cells vals) as Hcells.
  split; [repeat split |]. split; [intros lines; exact Hon' |].
  split; [exact Hcells |]. simpl line_ids.
  apply regenerated_warnings.
Qed.

(** X11.  When no finished lot is chosen, regeneration yields rows that
    are bound to no finished lot, so the regenerated wizard has no
    warning at all although every cell is empty: the warning count is 0
    and the message is empty. *)
Theorem regeneration_without_lots_has_no_warning (E : Env)
    (browse : Z -> mrp_production) (rec rec' : wizard) :
  finished_lot_ids rec = [] ->
  _onchange_finished_lot_ids browse rec = Ok rec' ->
  Forall (fun r => finished_lot_id r = None /\ component_lot_id r = None)
         (line_ids rec')
  /\ lot_selection_warning_count (_compute_lot_selection_warning (line_ids rec'))
     = 0%Z
  /\ lot_selection_warning_msg (_compute_lot_selection_warning (line_ids rec'))
     = "".
Proof.
  intros Hlots Hon.
  apply onchange_lines in Hon. destruct Hon as [vals [Hgen ->]].
  simpl line_ids in *.
  pose proof (new_lines_empty_cells vals) as Hcells.
  pose proof (proj2 (regenerated_warnings vals)) as Hzero.
  assert (Hunbound : Forall (fun r => finished_lot_id r = None)
                            (map new_line vals)).
  { rewrite get_matrix_lines_groups, Hlots in Hgen. unfold rmap, rbind in Hgen.
    destruct (collect_components _ _ _ _) as [tracked |]; [| discriminate].
    injection Hgen as <-.
    pose proof (placeholder_rows_unbound tracked
                  (Z.to_nat (int_of_float
                               (product_qty (browse (production_id rec))))) 0)
      as Hp.
    rewrite Forall_forall in Hp. apply Forall_forall. intros r Hin.
    apply in_map_iff in Hin. destruct Hin as [v [<- Hv]].
    simpl. now rewrite (Hp v Hv). }
  split.
  - rewrite Forall_forall in *. intros r Hin. split; auto.
  - pose proof (proj2 Hzero Hunbound) as Hc. split; [assumption |].
    now apply count_zero_msg_empty.
Qed.

(** X12.  Opening the wizard on an order shown in the serial matrix
    that already has a finished lot [l]: the defaults carry the order,
    [l] as the only finished lot, and rows made of the group of [l]
    followed by placeholder groups numbered from 1 for the other units.
    With no finished lot on the order all groups are placeholders. *)
Theorem default_get_groups (E : Env) (b : bool) (browse : Z -> mrp_production)
    (show : Z -> bool) (pid : Z) (res : defaults)
    (tracked : list component_tuple) :
  pid <> 0%Z ->
  show pid = true ->
  collect_components b (browse pid) (move_raw_ids (browse pid)) [] = Ok tracked ->
  let ctx := {| active_id := Some (Some pid);
                active_model := Some "mrp.production" |} in
  let n := Z.to_nat (int_of_float (product_qty (browse pid))) in
  let lots := match lot_producing_id (browse pid) with
              | Some l => [l]
              | None => []
              end in
  default_get b browse show ctx res
  = Returned
      {| d_production_id := Some pid;
         d_finished_lot_ids := Some lots;
         d_line_ids :=
           Some (flat_map (group_rows tracked)
                   (map (fun l => (Some l, 0%Z)) (firstn n lots)
                      ++ map (fun i => (None, i))
                             (py_range 1 (1 + Z.of_nat (n - List.length lots)))));
         d_include_lots := d_include_lots res |}.
Proof.
  intros Hpid Hshow Hcc ctx n lots.
  unfold default_get. simpl.
  rewrite (proj2 (Z.eqb_neq pid 0) Hpid), Hshow. simpl.
  assert (Hnd : NoDup lots).
  { unfold lots. destruct (lot_producing_id (browse pid)); repeat constructor.
    simpl. tauto. }
  fold lots.
  rewrite (get_matrix_lines_chosen b (browse pid) lots tracked Hnd Hcc).
  reflexivity.
Qed.

(** X13.  [default_get] checks in this order: both context keys must be
    present; a missing or zero active id returns the inherited defaults
    untouched, whatever the active model; a wrong active model fails the
    assertion; an order not shown in the serial matrix raises the user
    error; and any other exception that leaves [default_get] is one the
    generator raised for that order. *)
Theorem default_get_checks (E : Env) (b : bool) (browse : Z -> mrp_production)
    (show : Z -> bool) (ctx : context) (res : defaults) :
  (active_id ctx = None ->
   default_get b browse show ctx res = Failed (KeyError "active_id"))
  /\ (forall model,
         active_model ctx = Some model ->
         (active_id ctx = Some None \/ active_id ctx = Some (Some 0%Z)) ->
         default_get b browse show ctx res = Returned res)
  /\ (forall pid model,
         active_id ctx = Some (Some pid) -> pid <> 0%Z ->
         active_model ctx = Some model -> model <> "mrp.production" ->
         default_get b browse show ctx res
         = Failed (AssertionError "Bad context propagation"))
  /\ (forall pid,
         active_id ctx = Some (Some pid) -> pid <> 0%Z ->
         active_model ctx = Some "mrp.production" -> show pid = false ->
         default_get b browse show ctx res
         = Failed (Raised (UserError
             "The finished product of this MO is not tracked by serial numbers.")))
  /\ (forall e,
         default_get b browse show ctx res = Failed (Raised e) ->
         e = UserError
               "The finished product of this MO is not tracked by serial numbers."
         \/ exists pid,
              active_id ctx = Some (Some pid)
              /\ _get_matrix_lines b (browse pid)
                   (match lot_producing_id (browse pid) with
                    | Some l => [l]
                    | None => []
                    end) = Raise e).
Proof.
  unfold default_get. repeat split.
  - intros ->. reflexivity.
  - intros model -> [-> | ->]; reflexivity.
  - intros pid model -> Hpid -> Hm.
    rewrite (proj2 (Z.eqb_neq pid 0) Hpid).
    now rewrite (proj2 (String.eqb_neq model "mrp.production") Hm).
  - intros pid -> Hpid -> Hshow.
    rewrite (proj2 (Z.eqb_neq pid 0) Hpid). simpl. now rewrite Hshow.
  - intros e.
    destruct (active_id ctx) as [[pid |] |]; [| | discriminate].
    + destruct (active_model ctx) as [model |]; [| discriminate].
      destruct (pid =? 0)%Z; [discriminate |].
      destruct (String.eqb model "mrp.production"); simpl; [| discriminate].
      destruct (show pid); simpl.
      * destruct (_get_matrix_lines _ _ _) as [ml | e'] eqn:Hgen;
          [discriminate |].
        intros [= <-]. right. exists pid. split; [reflexivity | exact Hgen].
      * intros [= <-]. now left.
    + destruct (active_model ctx); discriminate.
Qed.

(** ** Commit: errors, success, order of effects *)

Section CommitMore.
Context {E : Env} {H : Host}.

Lemma bind_ok_inv {A B} (m : M A) (k : A -> M B) (w w' : world) (b : B) :
  bind m k w = (Ok b, w') ->
  exists a w1, m w = (Ok a, w1) /\ k a w1 = (Ok b, w').
Proof.
  unfold bind. destruct (m w) as [[a | e] w1]; [eauto | discriminate].
Qed.

Lemma bind_raise_left {A B} (m : M A) (k : A -> M B) (w w1 : world) (e : exn) :
  m w = (Raise e, w1) -> bind m k w = (Raise e, w1).
Proof. intros Hm. unfold bind. now rewrite Hm. Qed.

(** A loop of plain calls that ends well has logged them all, in order. *)
Lemma for_each_calls_log {A} (f : A -> host_call) (l : list A) (w w' : world) :
  for_each l (fun x => call (f x)) w = (Ok tt, w') ->
  snd w' = snd w ++ map f l.
Proof.
  revert w. induction l as [| x l IH]; intros w; simpl.
  - unfold ret. intros [= <-]. now rewrite app_nil_r.
  - intros Hb. apply bind_ok_inv in Hb. destruct Hb as [[] [w1 [Hc Hrest]]].
    apply IH in Hrest. rewrite Hrest.
    unfold call in Hc. destruct (host_raises (f x) (fst w)); [discriminate |].
    injection Hc as <-. simpl. now rewrite <- app_assoc.
Qed.

Lemma for_each_calls_quiet {A} (f : A -> host_call) (l : list A) (w : world) :
  (forall c h, host_raises c h = None) ->
  for_each l (fun x => call (f x)) w
  = (Ok tt, (fold_left (fun h c => host_exec c h) (map f l) (fst w),
             snd w ++ map f l)).
Proof.
  intros Hq. revert w. induction l as [| x l IH]; intros [h log]; simpl.
  - unfold ret. now rewrite app_nil_r.
  - unfold bind, call at 1. rewrite Hq. simpl. rewrite IH. simpl.
    now rewrite <- app_assoc.
Qed.

(** A unit loop that ends well found an order for every finished lot. *)
Lemma units_ok_indices (self : wizard) (mos : mo_collection) (lots : list lot)
    (s : nat) (w w' : world) :
  for_each (combine (seq s (List.length lots)) lots) (produce_unit self mos) w
  = (Ok tt, w') ->
  forall i, (s <= i < s + List.length lots)%nat ->
            (i < List.length (mo_items mos))%nat.
Proof.
  revert s w. induction lots as [| f lots IH]; intros s w; simpl.
  - intros _ i Hi. lia.
  - intros Hb. apply bind_ok_inv in Hb. destruct Hb as [[] [w1 [Hu Hrest]]].
    intros i Hi.
    destruct (Nat.eq_dec i s) as [-> | Hne].
    + unfold produce_unit in Hu.
      destruct (nth_error (mo_items mos) s) eqn:Hn; [| discriminate].
      apply nth_error_Some. congruence.
    + apply (IH (S s) w1 Hrest). lia.
Qed.

(** The calls of one unit: neither a split nor a mark-done. *)
Lemma reserve_move_emits_work (self : wizard) (mo move : Z) :
  emits (fun c => is_mark_done c = false /\ is_split c = false)
        (reserve_move self mo move).
Proof.
  unfold reserve_move.
  apply emits_bind; [apply emits_read | intros mo_lot].
  apply emits_bind; [apply emits_read | intros mv].
  apply emits_bind.
  - destruct (filter _ (line_ids self)) as [| l0 ls].
    + apply emits_call. split; reflexivity.
    + apply emits_bind; [apply emits_lift | intros l1].
      apply emits_call. split; reflexivity.
  - intros _. apply emits_bind; [apply emits_read | intros lines].
    apply emits_for_each. intros line _. apply emits_call. split; reflexivity.
Qed.

Lemma produce_unit_emits_work (self : wizard) (mos : mo_collection)
    (item : nat * lot) :
  emits (fun c => is_mark_done c = false /\ is_split c = false)
        (produce_unit self mos item).
Proof.
  destruct item as [index finished_lot]. unfold produce_unit.
  destruct (nth_error (mo_items mos) index) as [mo |]; [| apply emits_raise].
  apply emits_bind; [apply emits_call; split; reflexivity | intros _].
  apply emits_bind; [apply emits_call; split; reflexivity | intros _].
  apply emits_bind; [apply emits_read | intros moves].
  apply emits_for_each. intros move _. apply reserve_move_emits_work.
Qed.

Lemma units_emit_work (self : wizard) (mos : mo_collection) :
  emits (fun c => is_mark_done c = false /\ is_split c = false)
        (for_each (enumerate (finished_lot_ids self)) (produce_unit self mos)).
Proof. apply emits_for_each. intros item _. apply produce_unit_emits_work. Qed.

(** A run of [produce_all] that returns: the orders form a recordset,
    every finished lot had its order, and the log is the work on the
    units followed by the mark-done of every order. *)
Lemma produce_all_ok (self : wizard) (mos : mo_collection) (w w' : world)
    (a : act_window) :
  produce_all self mos w = (Ok a, w') ->
  exists ids mid,
    mos = Recordset ids
    /\ a = {| act_name := "Manufacturing Orders";
              act_res_model := "mrp.production";
              act_domain_ids := ids |}
    /\ (List.length (finished_lot_ids self) <= List.length ids)%nat
    /\ snd w' = snd w ++ mid ++ map button_mark_done ids
    /\ Forall (fun c => is_mark_done c = false /\ is_split c = false) mid.
Proof.
  unfold produce_all. intros Hb.
  apply bind_ok_inv in Hb. destruct Hb as [[] [w1 [Hunits Hb]]].
  apply bind_ok_inv in Hb. destruct Hb as [[] [w2 [Hdone Hret]]].
  destruct mos as [ids | items]; [| discriminate].
  unfold ret in Hret. injection Hret as <- <-.
  destruct (units_emit_work self (Recordset ids) w) as [mid [Hlog Hmid]].
  rewrite Hunits in Hlog. simpl in Hlog.
  apply for_each_calls_log in Hdone. simpl in Hdone.
  exists ids, mid. repeat split; try assumption.
  - pose proof (units_ok_indices self (Recordset ids) (finished_lot_ids self)
                  0 w w1 Hunits) as Hidx.
    simpl in Hidx.
    destruct (finished_lot_ids self) as [| f rest] eqn:Hl; simpl; [lia |].
    specialize (Hidx (List.length rest)). simpl in Hidx. lia.
  - rewrite Hdone, Hlog. now rewrite <- app_assoc.
Qed.

Lemma produce_all_units_raise (self : wizard) (mos : mo_collection)
    (w w1 : world) (e : exn) :
  for_each (enumerate (finished_lot_ids self)) (produce_unit self mos) w
  = (Raise e, w1) ->
  produce_all self mos w = (Raise e, w1)
  /\ exists calls,
       snd w1 = snd w ++ calls
       /\ Forall (fun c => is_mark_done c = false /\ is_split c = false) calls.
Proof.
  intros Hunits. split.
  - unfold produce_all. now apply bind_raise_left.
  - destruct (units_emit_work self mos w) as [calls [Hlog Hcalls]].
    rewrite Hunits in Hlog. eauto.
Qed.

Lemma reserve_move_ambiguous (self : wizard) (mo move : Z) (w : world) :
  (2 <= List.length
          (filter (matches_move
                     (lot_producing_id (read_production (fst w) mo))
                     (move_product_id (read_move (fst w) move)))
                  (line_ids self)))%nat ->
  reserve_move self mo move w = (Raise ValueError, w).
Proof.
  intros Hlen. unfold reserve_move, bind, read. simpl.
  destruct (filter _ (line_ids self)) as [| l0 [| l1 ls]]; simpl in Hlen;
    [lia | lia |].
  reflexivity.
Qed.

Lemma filter_two {A} (p : A -> bool) (a b c : list A) (x y : A) :
  p x = true -> p y = true ->
  (2 <= List.length (filter p (a ++ x :: b ++ y :: c)))%nat.
Proof.
  intros Hx Hy. rewrite filter_app, length_app. simpl. rewrite Hx. simpl.
  rewrite filter_app, length_app. simpl. rewrite Hy. simpl. lia.
Qed.

End CommitMore.

(** X14.  An order whose quantity is not greater than 1 can never be
    validated: whatever the wizard holds, [button_validate] ends with an
    exception and returns no action (without warnings, because [mos] is
    then a Python list, which has no [ids]). *)
Theorem validate_direct_never_returns (E : Env) (H : Host) (self : wizard)
    (w : world) :
  ~ (1 < product_qty (read_production (fst w) (production_id self)))%Q ->
  exists e w', button_validate self w = (Raise e, w').
Proof.
  intros Hq.
  destruct (button_validate self w) as [[a | e] w'] eqn:Hbv; [| eauto].
  exfalso. unfold button_validate in Hbv.
  destruct (0 <? _)%Z; [discriminate |].
  exact (commit_direct_raises self w Hq a w' Hbv).
Qed.

(** X15.  When [button_validate] returns an action: the wizard had no
    warning, the order's quantity was greater than 1, the action lists
    exactly the orders the host returned for the split, there were at
    least as many of them as chosen finished lots, and the calls made are
    the split, then the work on the units (no split, no mark-done), then
    one mark-done per returned order, in order. *)
Theorem validate_success_shape (E : Env) (H : Host) (self : wizard)
    (w w' : world) (a : act_window) :
  button_validate self w = (Ok a, w') ->
  let mo := production_id self in
  let amounts := repeat 1%Z (List.length (finished_lot_ids self)) in
  let ids := split_result (host_exec (split_productions mo amounts) (fst w))
                          mo amounts in
  lot_selection_warning_count (_compute_lot_selection_warning (line_ids self))
  = 0%Z
  /\ (1 < product_qty (read_production (fst w) mo))%Q
  /\ a = {| act_name := "Manufacturing Orders";
            act_res_model := "mrp.production";
            act_domain_ids := ids |}
  /\ (List.length (finished_lot_ids self) <= List.length ids)%nat
  /\ exists mid,
       snd w' = snd w ++ split_productions mo amounts :: mid
                      ++ map button_mark_done ids
       /\ Forall (fun c => is_mark_done c = false /\ is_split c = false) mid.
Proof.
  intros Hbv mo amounts ids.
  assert (Hc : lot_selection_warning_count
                 (_compute_lot_selection_warning (line_ids self)) = 0%Z).
  { unfold button_validate in Hbv.
    destruct (0 <? _)%Z eqn:Hpos; [discriminate |].
    apply Z.ltb_ge in Hpos. rewrite compute_fields in *. simpl in *. lia. }
  rewrite (validate_without_warnings self Hc) in Hbv.
  split; [assumption |].
  destruct (Qltb 1 (product_qty (read_production (fst w) mo))) eqn:Hq.
  - split; [now apply Qltb_lt |].
    rewrite (commit_split_run self w Hq) in Hbv. cbv zeta in Hbv.
    rewrite unit_amounts in Hbv. fold mo amounts in Hbv.
    destruct (host_raises (split_productions mo amounts) (fst w));
      [discriminate |].
    apply produce_all_ok in Hbv.
    destruct Hbv as [ids' [mid [Hids [Ha [Hlen [Hlog Hmid]]]]]].
    injection Hids as <-. fold ids in Ha, Hlen, Hlog.
    split; [assumption |]. split; [assumption |].
    exists mid. split; [| assumption].
    rewrite Hlog. simpl. now rewrite <- app_assoc.
  - exfalso. rewrite (commit_direct_run self w Hq) in Hbv.
    exact (produce_all_list_raises self _ w w' a Hbv).
Qed.

(** X16.  If the work on some unit raises, the exception leaves
    [button_validate]'s loop at once: the orders are not marked done (no
    mark-done call is logged) although the calls made for the units
    before the failure stay in the log. *)
Theorem unit_failure_marks_nothing_done (E : Env) (H : Host) (self : wizard)
    (mos : mo_collection) (w w1 : world) (e : exn) :
  for_each (enumerate (finished_lot_ids self)) (produce_unit self mos) w
  = (Raise e, w1) ->
  produce_all self mos w = (Raise e, w1)
  /\ exists calls,
       snd w1 = snd w ++ calls
       /\ Forall (fun c => is_mark_done c = false /\ is_split c = false) calls.
Proof. apply produce_all_units_raise. Qed.

(** X17.  Reserving for a move when two lines of the wizard (or more)
    carry the order's finished lot and the move's component raises
    [ValueError] before any call is made, and leaves the world as it
    was. *)
Theorem reserve_with_two_lines_raises (E : Env) (H : Host) (self : wizard)
    (mo move : Z) (w : world) (a b c : list matrix_line) (l1 l2 : matrix_line)
    (f : lot) :
  line_ids self = a ++ l1 :: b ++ l2 :: c ->
  lot_producing_id (read_production (fst w) mo) = Some f ->
  finished_lot_id l1 = Some f -> finished_lot_id l2 = Some f ->
  component_id l1 = move_product_id (read_move (fst w) move) ->
  component_id l2 = move_product_id (read_move (fst w) move) ->
  reserve_move self mo move w = (Raise ValueError, w).
Proof.
  intros Hlines Hlot Hf1 Hf2 Hc1 Hc2.
  apply reserve_move_ambiguous. rewrite Hlines, Hlot.
  apply filter_two; unfold matches_move.
  - rewrite Hf1, Hc1. simpl. now rewrite record_id_eqb_refl, Z.eqb_refl.
  - rewrite Hf2, Hc2. simpl. now rewrite record_id_eqb_refl, Z.eqb_refl.
Qed.

(** X18.  Validating with no warning and no finished lot chosen, on an
    order of quantity greater than 1 and a host that raises nothing:
    the wizard asks for a split with an empty list of amounts, writes no
    lot, and marks every order the host returns done; the action lists
    these orders. *)
Theorem validate_without_lots (E : Env) (H : Host) (self : wizard)
    (w : world) :
  finished_lot_ids self = [] ->
  lot_selection_warning_count (_compute_lot_selection_warning (line_ids self))
  = 0%Z ->
  (1 < product_qty (read_production (fst w) (production_id self)))%Q ->
  (forall c h, host_raises c h = None) ->
  let mo := production_id self in
  let h1 := host_exec (split_productions mo []) (fst w) in
  let ids := split_result h1 mo [] in
  button_validate self w
  = (Ok {| act_name := "Manufacturing Orders";
           act_res_model := "mrp.production";
           act_domain_ids := ids |},
     (fold_left (fun h c => host_exec c h) (map button_mark_done ids) h1,
      snd w ++ split_productions mo [] :: map button_mark_done ids)).
Proof.
  intros Hlots Hc Hq Hquiet mo h1 ids.
  rewrite (validate_without_warnings self Hc).
  apply Qltb_lt in Hq. rewrite (commit_split_run self w Hq). cbv zeta.
  rewrite Hlots. simpl map. fold mo. rewrite Hquiet. fold h1 ids.
  unfold produce_all. rewrite Hlots. unfold enumerate. simpl for_each.
  unfold bind at 1, ret at 1. unfold bind.
  rewrite (for_each_calls_quiet button_mark_done ids _ Hquiet). simpl.
  unfold ret. now rewrite <- app_assoc.
Qed.

(** ** The further properties at work on the sample data *)

Lemma generator_row_count_witness :
  exists lines tracked,
    _get_matrix_lines (E := Sample.exact_env) true (Sample.order 2) [] = Ok lines
    /\ collect_components (E := Sample.exact_env) true (Sample.order 2)
                          (move_raw_ids (Sample.order 2)) [] = Ok tracked
    /\ List.length lines = (2 * List.length tracked)%nat.
Proof.
  destruct (_get_matrix_lines (E := Sample.exact_env) true (Sample.order 2) [])
    as [lines | e] eqn:Hg; [| vm_compute in Hg; discriminate].
  destruct (generator_row_count Sample.exact_env true (Sample.order 2) []
              lines Hg) as [tracked [Hc Hl]].
  exists lines, tracked. split; [reflexivity |]. split; [exact Hc | exact Hl].
Defined.

Lemma generator_only_tracked_rows_witness :
  exists lines,
    _get_matrix_lines (E := Sample.exact_env) false (Sample.order 2) [] = Ok lines
    /\ Forall (fun v => vals_by_serial (E := Sample.exact_env) v = true
                        \/ (vals_by_lot (E := Sample.exact_env) v = true
                            /\ false = true)) lines.
Proof.
  destruct (_get_matrix_lines (E := Sample.exact_env) false (Sample.order 2) [])
    as [lines | e] eqn:Hg; [| vm_compute in Hg; discriminate].
  exists lines. split; [reflexivity |].
  exact (generator_only_tracked_rows Sample.exact_env false (Sample.order 2) []
           lines Hg).
Defined.

Lemma generator_chosen_lots_first_witness :
  _get_matrix_lines (E := Sample.exact_env) true (Sample.order 2) [Id 7]
  = Ok (flat_map
          (group_rows (E := Sample.exact_env)
                      [(1, 1, 1%Q); (1, 2, 1%Q); (3, 0, (6 # 4)%Q)])
          [(Some (Id 7), 0); (None, 1)]).
Proof.
  exact (proj1 (generator_chosen_lots_first Sample.exact_env true
                  (Sample.order 2) [Id 7]
                  [(1, 1, 1%Q); (1, 2, 1%Q); (3, 0, (6 # 4)%Q)]
                  ltac:(repeat constructor; simpl; tauto) eq_refl)).
Defined.

Lemma lot_flagged_iff_overdrawn_witness :
  let r1 := Sample.line 3 (Some (Id 5)) (Some (Id 1)) 3 in
  let r2 := Sample.line 3 (Some (Id 5)) (Some (Id 2)) 3 in
  In (Id 5) (fst (lot_pass (E := Sample.exact_env) [r1; r2] ([], [])))
  <-> (5 < requested (Id 5)
             (filter (is_lot_line (E := Sample.exact_env)) [r1; r2]))%Q.
Proof.
  intros r1 r2.
  refine (lot_flagged_iff_overdrawn Sample.exact_env [r1; r2] (Id 5) 5
            _ ltac:(discriminate) _).
  - intros pre r post _ _. split; apply Qeq_refl.
  - intros r [<- | [<- | []]] _; split;
      first [reflexivity | discriminate].
Defined.

Lemma generator_fails_on_zero_divisor_witness :
  exists e,
    _get_matrix_lines (E := Sample.exact_env) true
      {| product_qty := 0%Q; lot_producing_id := None;
         move_raw_ids := [Sample.move 1 1 4%Q]; move_byproduct_ids := [] |} []
    = Raise e.
Proof.
  exact (generator_fails_on_zero_divisor Sample.exact_env true
           {| product_qty := 0%Q; lot_producing_id := None;
              move_raw_ids := [Sample.move 1 1 4%Q];
              move_byproduct_ids := [] |} [] (Sample.move 1 1 4%Q)
           ltac:(simpl; auto) eq_refl ltac:(reflexivity)).
Defined.

Lemma regeneration_resets_cells_witness :
  exists rec',
    _onchange_finished_lot_ids (E := Sample.exact_env) (fun _ => Sample.order 2)
      (MoreSamples.wizard_of [Id 7]
         [Sample.line 1 (Some (Id 9)) (Some (Id 7)) 1]) = Ok rec'
    /\ Forall (fun r => component_lot_id r = None) (line_ids rec').
Proof.
  destruct (_onchange_finished_lot_ids (E := Sample.exact_env)
              (fun _ => Sample.order 2)
              (MoreSamples.wizard_of [Id 7]
                 [Sample.line 1 (Some (Id 9)) (Some (Id 7)) 1]))
    as [rec' | e] eqn:Hon; [| vm_compute in Hon; discriminate].
  exists rec'. split; [reflexivity |].
  exact (proj1 (proj2 (proj2 (regeneration_resets_cells Sample.exact_env
                                _ _ rec' Hon)))).
Defined.

Lemma regeneration_without_lots_has_no_warning_witness :
  exists rec',
    _onchange_finished_lot_ids (E := Sample.exact_env) (fun _ => Sample.order 2)
      (MoreSamples.wizard_of [] []) = Ok rec'
    /\ lot_selection_warning_count
         (_compute_lot_selection_warning (E := Sample.exact_env) (line_ids rec'))
       = 0%Z.
Proof.
  destruct (_onchange_finished_lot_ids (E := Sample.exact_env)
              (fun _ => Sample.order 2) (MoreSamples.wizard_of [] []))
    as [rec' | e] eqn:Hon; [| vm_compute in Hon; discriminate].
  exists rec'. split; [reflexivity |].
  exact (proj1 (proj2 (regeneration_without_lots_has_no_warning
                         Sample.exact_env (fun _ => Sample.order 2)
                         (MoreSamples.wizard_of [] []) rec' eq_refl Hon))).
Defined.

Lemma default_get_groups_witness :
  default_get (E := Sample.exact_env) true
    (fun _ => MoreSamples.lotted_order) (fun _ => true)
    {| active_id := Some (Some 10%Z); active_model := Some "mrp.production" |}
    {| d_production_id := None; d_finished_lot_ids := None;
       d_line_ids := None; d_include_lots := Some true |}
  = Returned
      {| d_production_id := Some 10%Z;
         d_finished_lot_ids := Some [Id 1];
         d_line_ids :=
           Some (flat_map (group_rows (E := Sample.exact_env)
                                      [(1, 1, 1%Q); (1, 2, 1%Q)])
                          [(Some (Id 1), 0); (None, 1)]);
         d_include_lots := Some true |}.
Proof.
  exact (default_get_groups Sample.exact_env true
           (fun _ => MoreSamples.lotted_order) (fun _ => true) 10
           {| d_production_id := None; d_finished_lot_ids := None;
              d_line_ids := None; d_include_lots := Some true |}
           [(1, 1, 1%Q); (1, 2, 1%Q)]
           ltac:(discriminate) eq_refl eq_refl).
Defined.

Lemma validate_direct_never_returns_witness :
  exists e w',
    button_validate (E := Sample.exact_env) (H := Sample.quiet_host 1)
                    (MoreSamples.wizard_of [Id 1] []) (tt, [])
    = (Raise e, w').
Proof.
  exact (validate_direct_never_returns Sample.exact_env (Sample.quiet_host 1)
           (MoreSamples.wizard_of [Id 1] []) (tt, [])
           ltac:(vm_compute; intro Hc; discriminate Hc)).
Defined.

Lemma validate_success_shape_witness :
  exists a w',
    button_validate (E := Sample.exact_env) (H := Sample.quiet_host 2)
                    (MoreSamples.wizard_of [Id 1; Id 2] []) (tt, [])
    = (Ok a, w')
    /\ a = {| act_name := "Manufacturing Orders";
              act_res_model := "mrp.production";
              act_domain_ids := [10; 11] |}.
Proof.
  destruct (button_validate (E := Sample.exact_env) (H := Sample.quiet_host 2)
              (MoreSamples.wizard_of [Id 1; Id 2] []) (tt, []))
    as [[a | e] w'] eqn:Hbv; [| vm_compute in Hbv; discriminate].
  exists a, w'. split; [reflexivity |].
  exact (proj1 (proj2 (proj2 (validate_success_shape
                                Sample.exact_env (Sample.quiet_host 2)
                                _ _ w' a Hbv)))).
Defined.

Lemma unit_failure_marks_nothing_done_witness :
  exists w1,
    produce_all (E := Sample.exact_env) (H := Sample.quiet_host 1)
                (MoreSamples.wizard_of [Id 1; Id 2] []) (PyList [10]) (tt, [])
    = (Raise IndexError, w1).
Proof.
  eexists.
  apply (proj1 (unit_failure_marks_nothing_done
                  Sample.exact_env (Sample.quiet_host 1)
                  (MoreSamples.wizard_of [Id 1; Id 2] []) (PyList [10])
                  (tt, []) _ IndexError ltac:(vm_compute; reflexivity))).
Defined.

Lemma reserve_with_two_lines_raises_witness :
  reserve_move (E := Sample.exact_env) (H := MoreSamples.lotted_host)
    (MoreSamples.wizard_of [Id 1]
       [Sample.line 1 (Some (Id 8)) (Some (Id 1)) 1;
        Sample.line 1 (Some (Id 9)) (Some (Id 1)) 1])
    10 1 (tt, [])
  = (Raise ValueError, (tt, [])).
Proof.
  exact (reserve_with_two_lines_raises
           Sample.exact_env MoreSamples.lotted_host
           (MoreSamples.wizard_of [Id 1]
              [Sample.line 1 (Some (Id 8)) (Some (Id 1)) 1;
               Sample.line 1 (Some (Id 9)) (Some (Id 1)) 1])
           10 1 (tt, []) [] [] []
           (Sample.line 1 (Some (Id 8)) (Some (Id 1)) 1)
           (Sample.line 1 (Some (Id 9)) (Some (Id 1)) 1)
           (Id 1) eq_refl eq_refl eq_refl eq_refl eq_refl eq_refl).
Defined.

Lemma validate_without_lots_witness :
  button_validate (E := Sample.exact_env) (H := Sample.quiet_host 2)
                  (MoreSamples.wizard_of [] []) (tt, [])
  = (Ok {| act_name := "Manufacturing Orders";
           act_res_model := "mrp.production";
           act_domain_ids := [] |},
     (tt, [split_productions 10 []])).
Proof.
  exact (validate_without_lots Sample.exact_env (Sample.quiet_host 2)
           (MoreSamples.wizard_of [] []) (tt, [])
           eq_refl eq_refl ltac:(reflexivity) (fun _ _ => eq_refl)).
Defined.

(** ** Column titles, writes on the orders, blocked validation *)

Section LastFacts.
Context {E : Env}.

Lemma py_range_positive (n i : Z) : In i (py_range 1 n) -> 0 < i.
Proof.
  unfold py_range. intros Hin. apply in_map_iff in Hin.
  destruct Hin as [k [<- _]]. lia.
Qed.

Lemma serial_column_title (p : product) (i : Z) (q : Q) (fl : option lot)
    (num : option Z) :
  0 < i ->
  v_component_column_name (_prepare_matrix_line (p, i, q) fl num)
  = display_name p +++ " (" +++ str_of_int i +++ ")".
Proof.
  intros Hi. unfold _prepare_matrix_line.
  rewrite (proj2 (Z.ltb_lt 0 i) Hi). now destruct fl.
Qed.

Lemma chosen_head_row_bound (tracked : list component_tuple) (ct : component_tuple)
    (heads : list (option lot * Z)) (n num : Z) :
  In ct tracked -> In (Some (Id n), num) heads ->
  exists v, In v (flat_map (group_rows tracked) heads)
            /\ v_finished_lot_id v = Some n.
Proof.
  intros Hct Hhead.
  exists (_prepare_matrix_line ct (Some (Id n)) (Some num)). split.
  - apply in_flat_map. exists (Some (Id n), num). split; [assumption |].
    unfold group_rows. apply in_map_iff. exists ct. auto.
  - destruct ct as [[c i] q]. reflexivity.
Qed.

End LastFacts.

Section UnitSteps.
Context {E : Env} {H : Host}.

Lemma reserve_move_emits_no_step (self : wizard) (mo move : Z) :
  emits (fun c => is_order_step c = false) (reserve_move self mo move).
Proof.
  unfold reserve_move.
  apply emits_bind; [apply emits_read | intros mo_lot].
  apply emits_bind; [apply emits_read | intros mv].
  apply emits_bind.
  - destruct (filter _ (line_ids self)) as [| l0 ls].
    + now apply emits_call.
    + apply emits_bind; [apply emits_lift | intros l1]. now apply emits_call.
  - intros _. apply emits_bind; [apply emits_read | intros lines].
    apply emits_for_each. intros line _. now apply emits_call.
Qed.

Lemma filter_none {A} (p : A -> bool) (l : list A) :
  Forall (fun x => p x = false) l -> filter p l = [].
Proof.
  induction 1 as [| x l Hx _ IH]; simpl; [reflexivity |]. now rewrite Hx.
Qed.

Lemma call_ok_log (c : host_call) (w w' : world) :
  call c w = (Ok tt, w') -> snd w' = snd w ++ [c].
Proof.
  unfold call. destruct (host_raises c (fst w)); [discriminate |].
  now intros [= <-].
Qed.

(** A unit that is produced logs its two steps, then calls that are not
    steps. *)
Lemma produce_unit_ok_steps (self : wizard) (mos : mo_collection)
    (index : nat) (f : lot) (w w' : world) :
  produce_unit self mos (index, f) w = (Ok tt, w') ->
  exists mo calls,
    nth_error (mo_items mos) index = Some mo
    /\ snd w' = snd w ++ calls
    /\ filter is_order_step calls = unit_steps (mo, f).
Proof.
  unfold produce_unit.
  destruct (nth_error (mo_items mos) index) as [mo |]; [| discriminate].
  intros Hb.
  apply bind_ok_inv in Hb. destruct Hb as [[] [wa [Hwrite Hb]]].
  apply bind_ok_inv in Hb. destruct Hb as [[] [wb [Hconfirm Hb]]].
  apply call_ok_log in Hwrite. apply call_ok_log in Hconfirm.
  match type of Hb with
  | ?m wb = _ =>
      assert (Hrest : emits (fun c => is_order_step c = false) m)
  end.
  { apply emits_bind; [apply emits_read | intros moves].
    apply emits_for_each. intros move _. apply reserve_move_emits_no_step. }
  destruct (Hrest wb) as [rest [Hlog Hns]]. rewrite Hb in Hlog. simpl in Hlog.
  exists mo, (write_production mo f 1%Q :: action_confirm mo :: rest).
  split; [reflexivity |]. split.
  - rewrite Hlog, Hconfirm, Hwrite. now rewrite <- !app_assoc.
  - simpl. now rewrite (filter_none _ _ Hns).
Qed.

Lemma skipn_nth_error {A} (l : list A) (s : nat) (x : A) :
  nth_error l s = Some x -> skipn s l = x :: skipn (S s) l.
Proof.
  revert s. induction l as [| y l IH]; intros [| s]; simpl; try discriminate.
  - now intros [= ->].
  - intros Hn. now apply IH.
Qed.

Lemma units_ok_steps (self : wizard) (mos : mo_collection) (lots : list lot)
    (s : nat) (w w' : world) :
  for_each (combine (seq s (List.length lots)) lots) (produce_unit self mos) w
  = (Ok tt, w') ->
  exists calls,
    snd w' = snd w ++ calls
    /\ filter is_order_step calls
       = flat_map unit_steps (combine (skipn s (mo_items mos)) lots).
Proof.
  revert s w. induction lots as [| f lots IH]; intros s w; simpl.
  - unfold ret. intros [= <-]. exists []. rewrite app_nil_r.
    split; [reflexivity |]. now destruct (skipn s (mo_items mos)).
  - intros Hb. apply bind_ok_inv in Hb. destruct Hb as [[] [w1 [Hu Hrest]]].
    apply produce_unit_ok_steps in Hu.
    destruct Hu as [mo [c1 [Hnth [Hlog1 Hf1]]]].
    destruct (IH (S s) w1 Hrest) as [c2 [Hlog2 Hf2]].
    exists (c1 ++ c2). split.
    + rewrite Hlog2, Hlog1. now rewrite <- app_assoc.
    + rewrite filter_app, Hf1, Hf2, (skipn_nth_error _ _ _ Hnth). reflexivity.
Qed.

End UnitSteps.

(** X19.  In what the generator returns, the column titles of every
    group are those of the rows of the moves before a requirement, then
    the titles of the requirement, then those of the rows of the moves
    after it; the titles of a serial requirement with per-unit quantity
    [q] are the component's display name followed by the ranks
    " (1)", ..., " (int(q))" in parentheses, that of a lot requirement
    (with lot-inclusion on) is the display name alone. *)
Theorem column_titles (E : Env) (inc : bool) (production : mrp_production)
    (before after : list stock_move) (move : stock_move) (q : Q)
    (lots : list lot) (lines : list line_vals) :
  move_raw_ids production = before ++ move :: after ->
  skipped move = false ->
  qty_per_finished_unit production move = Ok q ->
  _get_matrix_lines inc production lots = Ok lines ->
  let p := move_product_id move in
  let titles :=
    match tracking p with
    | by_serial =>
        map (fun i => display_name p +++ " (" +++ str_of_int i +++ ")")
            (py_range 1 (int_of_float q + 1))
    | by_lot => if inc then [display_name p] else []
    | none => []
    end in
  exists pre post,
    collect_components inc production before [] = Ok pre
    /\ collect_components inc production after [] = Ok post
    /\ map v_component_column_name lines
       = flat_map (fun head =>
                     map v_component_column_name (group_rows pre head)
                       ++ titles
                       ++ map v_component_column_name (group_rows post head))
                  (group_heads
                     (Z.to_nat (int_of_float (product_qty production)))
                     lots 0).
Proof.
  intros Hmoves Hs Hq Hgen p titles.
  rewrite get_matrix_lines_groups in Hgen. unfold rmap, rbind in Hgen.
  destruct (collect_components inc production (move_raw_ids production) [])
    as [tracked |] eqn:Hcc; [| discriminate].
  injection Hgen as <-. rewrite Hmoves in Hcc.
  destruct (collect_components_split _ _ _ _ _ _ Hcc)
    as [pre [rows [post [Hpre [Hrows [Hpost ->]]]]]].
  exists pre, post. split; [assumption |]. split; [assumption |].
  assert (Htitles : forall head,
             map v_component_column_name (group_rows rows head) = titles).
  { intros head. unfold move_components in Hrows. unfold skipped in Hs.
    rewrite Hs, Hq in Hrows. simpl in Hrows. unfold titles, p.
    destruct (tracking (move_product_id move)).
    - injection Hrows as <-. reflexivity.
    - destruct inc; injection Hrows as <-; [| reflexivity].
      unfold group_rows. simpl. now destruct (fst head).
    - injection Hrows as <-. unfold group_rows. rewrite !map_map.
      apply map_ext_in. intros i Hi.
      apply serial_column_title. exact (py_range_positive _ _ Hi). }
  induction (group_heads _ lots 0) as [| head heads IH]; simpl; [reflexivity |].
  rewrite map_app, IH. f_equal.
  unfold group_rows at 1. rewrite !map_app.
  fold (group_rows pre head) (group_rows rows head) (group_rows post head).
  now rewrite Htitles.
Qed.

Lemma column_titles_witness :
  exists lines,
    _get_matrix_lines (E := Sample.exact_env) true (Sample.order 2) [] = Ok lines
    /\ map v_component_column_name lines
       = ["P1 (1)"; "P1 (2)"; "P3"; "P1 (1)"; "P1 (2)"; "P3"].
Proof.
  destruct (_get_matrix_lines (E := Sample.exact_env) true (Sample.order 2) [])
    as [lines | e] eqn:Hg; [| vm_compute in Hg; discriminate].
  exists lines. split; [reflexivity |].
  destruct (column_titles Sample.exact_env true (Sample.order 2)
              [] [Sample.move 2 3 (6 / 2)%Q] (Sample.move 1 1 4%Q) (4 # 2)%Q
              [] lines eq_refl eq_refl eq_refl Hg)
    as [pre [post [Hpre [Hpost Htitles]]]].
  injection Hpre as <-. vm_compute in Hpost. injection Hpost as <-.
  exact Htitles.
Defined.

(** X20.  When [button_validate] returns an action, each chosen
    finished lot has been written, with quantity producing 1, on the
    order of the same rank among those the host returned for the split,
    and that order then confirmed: these are, in order, the only writes
    and confirmations between the split and the mark-done calls. *)
Theorem validate_writes_each_lot_on_its_order (E : Env) (H : Host)
    (self : wizard) (w w' : world) (a : act_window) :
  button_validate self w = (Ok a, w') ->
  let mo := production_id self in
  let amounts := repeat 1%Z (List.length (finished_lot_ids self)) in
  let ids := split_result (host_exec (split_productions mo amounts) (fst w))
                          mo amounts in
  exists mid,
    snd w' = snd w ++ split_productions mo amounts :: mid
                   ++ map button_mark_done ids
    /\ filter is_order_step mid
       = flat_map unit_steps (combine ids (finished_lot_ids self)).
Proof.
  intros Hbv mo amounts ids.
  assert (Hc : lot_selection_warning_count
                 (_compute_lot_selection_warning (line_ids self)) = 0%Z).
  { unfold button_validate in Hbv.
    destruct (0 <? _)%Z eqn:Hpos; [discriminate |].
    apply Z.ltb_ge in Hpos. rewrite compute_fields in *. simpl in *. lia. }
  rewrite (validate_without_warnings self Hc) in Hbv.
  destruct (Qltb 1 (product_qty (read_production (fst w) mo))) eqn:Hq.
  - rewrite (commit_split_run self w Hq) in Hbv. cbv zeta in Hbv.
    rewrite unit_amounts in Hbv. fold mo amounts in Hbv.
    destruct (host_raises (split_productions mo amounts) (fst w));
      [discriminate |].
    fold ids in Hbv. unfold produce_all in Hbv.
    apply bind_ok_inv in Hbv. destruct Hbv as [[] [w1 [Hunits Hbv]]].
    apply bind_ok_inv in Hbv. destruct Hbv as [[] [w2 [Hdone Hret]]].
    unfold ret in Hret. injection Hret as _ <-.
    apply for_each_calls_log in Hdone. simpl in Hdone.
    apply (units_ok_steps self (Recordset ids) (finished_lot_ids self) 0)
      in Hunits.
    destruct Hunits as [mid [Hlog Hsteps]]. simpl in Hlog, Hsteps.
    exists mid. split; [| assumption].
    rewrite Hdone, Hlog. now rewrite <- !app_assoc.
  - exfalso. rewrite (commit_direct_run self w Hq) in Hbv.
    exact (produce_all_list_raises self _ w w' a Hbv).
Qed.

(** X21.  A wizard just regenerated for distinct chosen finished lots
    cannot be validated as long as a chosen lot with a database id got a
    group (it is among the first lots, as many as the order has units)
    and some component is tracked: its cells are empty, so
    [button_validate] raises the user error and touches nothing. *)
Theorem regenerated_wizard_with_lot_is_blocked (E : Env) (H : Host)
    (browse : Z -> mrp_production) (rec rec' : wizard) (w : world)
    (tracked : list component_tuple) (ct : component_tuple) (n : Z) :
  _onchange_finished_lot_ids browse rec = Ok rec' ->
  NoDup (finished_lot_ids rec) ->
  collect_components (include_lots rec) (browse (production_id rec))
                     (move_raw_ids (browse (production_id rec))) []
  = Ok tracked ->
  In ct tracked ->
  In (Id n)
     (firstn (Z.to_nat (int_of_float (product_qty (browse (production_id rec)))))
             (finished_lot_ids rec)) ->
  exists msg, button_validate rec' w = (Raise (UserError msg), w).
Proof.
  intros Hon Hnd Hcc Hct Hin.
  apply onchange_lines in Hon. destruct Hon as [vals [Hgen ->]].
  rewrite (get_matrix_lines_chosen _ _ _ tracked Hnd Hcc) in Hgen.
  injection Hgen as <-.
  match goal with
  | |- context [flat_map (group_rows tracked) ?hs] => set (heads := hs)
  end.
  assert (Hhead : In (Some (Id n), 0%Z) heads).
  { unfold heads. apply in_or_app. left. apply in_map_iff. now exists (Id n). }
  destruct (chosen_head_row_bound tracked ct heads n 0 Hct Hhead)
    as [v [Hv Hbound]].
  assert (Hcount : lot_selection_warning_count
                     (_compute_lot_selection_warning
                        (map new_line (flat_map (group_rows tracked) heads)))
                   <> 0%Z).
  { intro Hz. apply (proj2 (regenerated_warnings _)) in Hz.
    rewrite Forall_forall in Hz.
    specialize (Hz (new_line v) (in_map new_line _ _ Hv)).
    simpl in Hz. rewrite Hbound in Hz. discriminate. }
  unfold button_validate. simpl line_ids.
  destruct (0 <? _)%Z eqn:Hpos.
  - unfold raise. eauto.
  - exfalso. apply Z.ltb_ge in Hpos. rewrite compute_fields in *.
    simpl in *. lia.
Qed.

Lemma validate_writes_each_lot_on_its_order_witness :
  exists a w',
    button_validate (E := Sample.exact_env) (H := Sample.quiet_host 2)
                    (MoreSamples.wizard_of [Id 1; Id 2] []) (tt, [])
    = (Ok a, w')
    /\ exists mid,
         snd w' = split_productions 10 [1; 1] :: mid
                    ++ [button_mark_done 10; button_mark_done 11]
         /\ filter is_order_step mid
            = [write_production 10 (Id 1) 1%Q; action_confirm 10;
               write_production 11 (Id 2) 1%Q; action_confirm 11].
Proof.
  destruct (button_validate (E := Sample.exact_env) (H := Sample.quiet_host 2)
              (MoreSamples.wizard_of [Id 1; Id 2] []) (tt, []))
    as [[a | e] w'] eqn:Hbv; [| vm_compute in Hbv; discriminate].
  exists a, w'. split; [reflexivity |].
  exact (validate_writes_each_lot_on_its_order
           Sample.exact_env (Sample.quiet_host 2) _ _ w' a Hbv).
Defined.

Lemma regenerated_wizard_with_lot_is_blocked_witness :
  exists rec' msg,
    _onchange_finished_lot_ids (E := Sample.exact_env) (fun _ => Sample.order 2)
      (MoreSamples.wizard_of [Id 7] []) = Ok rec'
    /\ button_validate (E := Sample.exact_env) (H := Sample.quiet_host 2)
                       rec' (tt, [])
       = (Raise (UserError msg), (tt, [])).
Proof.
  destruct (_onchange_finished_lot_ids (E := Sample.exact_env)
              (fun _ => Sample.order 2) (MoreSamples.wizard_of [Id 7] []))
    as [rec' | e] eqn:Hon; [| vm_compute in Hon; discriminate].
  destruct (regenerated_wizard_with_lot_is_blocked
              Sample.exact_env (Sample.quiet_host 2)
              (fun _ => Sample.order 2) (MoreSamples.wizard_of [Id 7] [])
              rec' (tt, [])
              [(1, 1, 1%Q); (1, 2, 1%Q); (3, 0, (6 # 4)%Q)] (1, 1, 1%Q) 7
              Hon ltac:(repeat constructor; simpl; tauto) eq_refl
              ltac:(simpl; auto) ltac:(simpl; auto))
    as [msg Hmsg].
  exists rec', msg. split; [reflexivity | exact Hmsg].
Defined.
